(** * RUNE: dice resolution, stamina and armour rules of [RuneActor]

    A shallow embedding of the rule logic of the RUNE game system
    (class [RuneActor]: [rollCheck], [rollAttack], [applyDamage],
    [healStamina], [prepareDerivedData]) and the properties its
    specification states about it, followed by [RuneItem.toggleEquipped],
    the stamina clamp of the actor data model, the item and limit
    preparation of the actor sheet and the [window.RUNE] helpers, with
    further properties of how these rules behave and compose.

    Numbers are the integer fields of the actor and item schemas and are
    modelled as [Z].  The [approaches] object is modelled as a finite map
    of its own properties, with the names it inherits from
    [Object.prototype] beside it.  The host's [Roll] is modelled by an
    injected die roller; the host's [ChatMessage.create] by returning the
    message; the host's [update] by writing the field of the actor record,
    and the preparation the host runs after it by [hostPrepare]. *)

From Stdlib Require Import ZArith Lia.
From stdpp Require Import base list sorting strings gmap.

Local Open Scope Z_scope.

(** ** The JavaScript built-ins the rules use *)

Module Js.

(** [v || 0] on a possibly absent number: [undefined] and [0] are falsy. *)
Definition or_zero (v : option Z) : Z :=
  match v with
  | Some n => if decide (n = 0) then 0 else n
  | None => 0
  end.

(** Truthiness of a possibly absent boolean. *)
Definition truthy (v : option bool) : bool :=
  match v with
  | Some b => b
  | None => false
  end.

(** One insertion step of a stable sort: [x] stood before every element
    of [l] and stays before those it does not compare greater than. *)
Fixpoint sort_insert (compareFn : Z → Z → Z) (x : Z) (l : list Z) : list Z :=
  match l with
  | [] => [x]
  | y :: l' =>
      if decide (compareFn x y ≤ 0) then x :: y :: l'
      else y :: sort_insert compareFn x l'
  end.

(** [Array.prototype.sort(compareFn)], which is stable. *)
Definition sort (compareFn : Z → Z → Z) (l : list Z) : list Z :=
  foldr (sort_insert compareFn) [] l.

(** Relative index of [Array.prototype.slice]: a negative index counts
    from the end, and both ends are clamped to the array. *)
Definition relative_index (len i : Z) : Z :=
  if decide (i < 0) then Z.max (len + i) 0 else Z.min i len.

(** [Array.prototype.slice(start, end)]; [end] absent means the length. *)
Definition slice {A} (start : Z) (stop : option Z) (l : list A) : list A :=
  let len := Z.of_nat (length l) in
  let k := relative_index len start in
  let final := match stop with
               | Some e => relative_index len e
               | None => len
               end in
  take (Z.to_nat (final - k)) (drop (Z.to_nat k) l).

(** [arr.reduce((sum, die) => sum + die, 0)]. *)
Definition reduce_sum (l : list Z) : Z :=
  fold_left (λ sum die, sum + die) l 0.

(** The host's [Math.clamp(num, min, max)]: [Math.min(Math.max(num, min), max)]. *)
Definition Math_clamp (num lo hi : Z) : Z := Z.min (Z.max num lo) hi.

(** [a === v] for an array element that may be [undefined]. *)
Definition strict_eq (e : option Z) (v : Z) : bool :=
  bool_decide (e = Some v).

End Js.

(** ** The host's dice
    [new Roll(`${numDice}d6`).evaluate()] asks the host for [numDice] dice
    of [faces] faces.  The injected [dieRoller faces i] is the value of the
    [i]-th die of the evaluation. *)

Definition DieRoller := Z → nat → Z.

Definition conforming (dieRoller : DieRoller) : Prop :=
  ∀ faces i, 1 ≤ faces → 1 ≤ dieRoller faces i ≤ faces.

Record Roll := {
  roll_number : Z;
  roll_faces : Z;
  roll_results : list Z
}.

Definition Roll_evaluate (dieRoller : DieRoller) (numDice faces : Z) : Roll :=
  {| roll_number := numDice;
     roll_faces := faces;
     roll_results := dieRoller faces <$> seq 0 (Z.to_nat numDice) |}.

(** ** Documents *)

(** An embedded item: its [type] and the fields of [item.system] the actor
    reads; a field the item's schema lacks is [undefined]. *)
Record Item := {
  item_type : string;
  equipped : option bool;
  armorValue : option Z;
  magicResistValue : option Z
}.

Record Stamina := {
  value : Z;
  max : Z
}.

(** [actor.system] *)
Record ActorSystem := {
  approaches : gmap string Z;
  stamina : Stamina;
  armor : Z;
  magicResist : Z
}.

Record Actor := {
  actor_name : string;
  actor_type : string;
  system : ActorSystem;
  items : option (list Item)
}.

(** ** Chat messages
    The HTML of a message is kept as the values the template interpolates. *)

Record Flavor := {
  flavor_approach : string;
  flavor_kind : string;
  flavor_magic : bool;
  flavor_advantage : option (Z * string)
}.

Record CheckCard := {
  card_outcomeClass : string;
  card_outcome : string;
  card_rolled : list Z;
  card_used : option (list Z);
  card_math : list Z * Z * string * Z;
  card_description : string
}.

Record TargetCard := {
  target_name : string;
  target_label : string;
  target_resistance : Z;
  target_outcomeClass : string;
  target_outcome : string;
  target_damage : option Z
}.

Record AttackCard := {
  attack_rolled : list Z;
  attack_used : option (list Z);
  attack_math : list Z * Z * string * Z;
  attack_target : option TargetCard
}.

Record DamageCard := {
  damage_lethal : bool;
  damage_name : string;
  damage_amount : Z;
  damage_from : Z;
  damage_to : Z;
  damage_warning : bool
}.

Record HealingCard := {
  healing_name : string;
  healing_amount : Z;
  healing_from : Z;
  healing_to : Z
}.

Inductive Content :=
  | CheckContent (c : CheckCard)
  | AttackContent (c : AttackCard)
  | DamageContent (c : DamageCard)
  | HealingContent (c : HealingCard).

Record ChatMessage := {
  speaker : string;
  flavor : option Flavor;
  content : Content;
  roll : option Roll
}.

(** ** Dice selection, shared by [rollCheck] and [rollAttack] *)

Definition compareDesc (a b : Z) : Z := b - a.

Definition selectDice (advantage : Z) (sortedDice : list Z) : list Z :=
  if decide (advantage > 0) then Js.slice 0 (Some 2) sortedDice
  else if decide (advantage < 0) then Js.slice (-2) None sortedDice
  else Js.slice 0 (Some 2) sortedDice.

Definition advantageFlavor (advantage : Z) : option (Z * string) :=
  if decide (advantage ≠ 0)
  then Some (Z.abs advantage,
             if decide (advantage > 0) then "Advantage" else "Disadvantage")
  else None.

(** ** [rollCheck] *)

(** The local variables of [rollCheck] once the outcome is decided, for an
    approach value that is a number: a score of the actor, or 0 for a name
    the [approaches] object does not know.  The names it inherits are
    covered by [rollCheck_js_locals]. *)
Record CheckLocals := {
  chk_approachValue : Z;
  chk_numDice : Z;
  chk_roll : Roll;
  chk_sortedDice : list Z;
  chk_selectedDice : list Z;
  chk_diceTotal : Z;
  chk_total : Z;
  chk_isGlory : bool;
  chk_isRuin : bool;
  chk_outcome : string;
  chk_outcomeClass : string
}.

Definition checkOutcome (isGlory isRuin : bool) (total : Z) : string * string :=
  if isGlory then ("GLORY! (6-6)", "glory")
  else if isRuin then ("RUIN! (1-1)", "ruin")
  else if decide (total >= 10) then ("SUCCESS!", "success")
  else if decide (total >= 6) then ("COMPLICATION", "complication")
  else ("FAILURE", "failure").

Definition rollCheck_locals (this : Actor) (dieRoller : DieRoller)
    (approach : string) (advantage : Z) : CheckLocals :=
  let approachValue := Js.or_zero (approaches (system this) !! approach) in
  let numDice := 2 + Z.abs advantage in
  let roll := Roll_evaluate dieRoller numDice 6 in
  let sortedDice := Js.sort compareDesc (roll_results roll) in
  let selectedDice := selectDice advantage sortedDice in
  let diceTotal := Js.reduce_sum selectedDice in
  let total := diceTotal + approachValue in
  let isGlory := Js.strict_eq (selectedDice !! 0%nat) 6
                 && Js.strict_eq (selectedDice !! 1%nat) 6 in
  let isRuin := Js.strict_eq (selectedDice !! 0%nat) 1
                && Js.strict_eq (selectedDice !! 1%nat) 1 in
  let decided := checkOutcome isGlory isRuin total in
  let outcome := decided.1 in
  let outcomeClass := decided.2 in
  {| chk_approachValue := approachValue;
     chk_numDice := numDice;
     chk_roll := roll;
     chk_sortedDice := sortedDice;
     chk_selectedDice := selectedDice;
     chk_diceTotal := diceTotal;
     chk_total := total;
     chk_isGlory := isGlory;
     chk_isRuin := isRuin;
     chk_outcome := outcome;
     chk_outcomeClass := outcomeClass |}.

Definition _getOutcomeDescription (outcome outcomeClass : string) : string :=
  if decide (outcomeClass = "glory")
  then "The character must be rewarded appropriately!"
  else if decide (outcomeClass = "ruin")
  then "Suffer all consequences and a major disaster!"
  else if decide (outcomeClass = "success")
  then "The action succeeds without problem."
  else if decide (outcomeClass = "complication")
  then "Partially successful. Something goes wrong."
  else if decide (outcomeClass = "failure")
  then "Suffer all of the action's consequences."
  else "".

Definition rollCheck (this : Actor) (dieRoller : DieRoller)
    (approach : string) (advantage : Z) : ChatMessage :=
  let v := rollCheck_locals this dieRoller approach advantage in
  {| speaker := actor_name this;
     flavor := Some {| flavor_approach := approach;
                       flavor_kind := "Check";
                       flavor_magic := false;
                       flavor_advantage := advantageFlavor advantage |};
     content := CheckContent
       {| card_outcomeClass := chk_outcomeClass v;
          card_outcome := chk_outcome v;
          card_rolled := chk_sortedDice v;
          card_used := if decide (advantage ≠ 0)
                       then Some (chk_selectedDice v) else None;
          card_math := (chk_selectedDice v, chk_approachValue v, approach,
                        chk_total v);
          card_description :=
            _getOutcomeDescription (chk_outcome v) (chk_outcomeClass v) |};
     roll := Some (chk_roll v) |}.

(** ** [rollAttack] *)

(** The local variables of the [if (target)] block of [rollAttack]. *)
Record TargetLocals := {
  tgt_name : string;
  tgt_resistance : Z;
  tgt_damage : Z;
  tgt_outcome : string;
  tgt_outcomeClass : string
}.

(** The local variables of [rollAttack], for an approach value that is a
    number (the inherited names are covered by [rollAttack_js_locals]);
    [atk_target] is absent when the [if (target)] block is not entered. *)
Record AttackLocals := {
  atk_approachValue : Z;
  atk_numDice : Z;
  atk_roll : Roll;
  atk_sortedDice : list Z;
  atk_selectedDice : list Z;
  atk_diceTotal : Z;
  atk_attackTotal : Z;
  atk_isGlory : bool;
  atk_isRuin : bool;
  atk_target : option TargetLocals
}.

Definition attackOutcome (isGlory isRuin : bool) (attackTotal resistance : Z)
    : string * string :=
  if isGlory then ("GLORY!", "glory")
  else if isRuin then ("RUIN!", "ruin")
  else if decide (attackTotal > resistance) then ("HIT!", "success")
  else if decide (attackTotal = resistance) then ("BLOCKED", "complication")
  else ("MISS", "failure").

Definition rollAttack_target (isMagic isGlory isRuin : bool) (attackTotal : Z)
    (target : Actor) : TargetLocals :=
  let resistance := if isMagic then magicResist (system target)
                    else armor (system target) in
  let damage := Z.max 0 (attackTotal - resistance) in
  let decided := attackOutcome isGlory isRuin attackTotal resistance in
  let outcome := decided.1 in
  let outcomeClass := decided.2 in
  {| tgt_name := actor_name target;
     tgt_resistance := resistance;
     tgt_damage := damage;
     tgt_outcome := outcome;
     tgt_outcomeClass := outcomeClass |}.

Definition rollAttack_locals (this : Actor) (dieRoller : DieRoller)
    (approach : string) (target : option Actor) (isMagic : bool)
    (advantage : Z) : AttackLocals :=
  let approachValue := Js.or_zero (approaches (system this) !! approach) in
  let numDice := 2 + Z.abs advantage in
  let roll := Roll_evaluate dieRoller numDice 6 in
  let sortedDice := Js.sort compareDesc (roll_results roll) in
  let selectedDice := selectDice advantage sortedDice in
  let diceTotal := Js.reduce_sum selectedDice in
  let attackTotal := diceTotal + approachValue in
  let isGlory := Js.strict_eq (selectedDice !! 0%nat) 6
                 && Js.strict_eq (selectedDice !! 1%nat) 6 in
  let isRuin := Js.strict_eq (selectedDice !! 0%nat) 1
                && Js.strict_eq (selectedDice !! 1%nat) 1 in
  {| atk_approachValue := approachValue;
     atk_numDice := numDice;
     atk_roll := roll;
     atk_sortedDice := sortedDice;
     atk_selectedDice := selectedDice;
     atk_diceTotal := diceTotal;
     atk_attackTotal := attackTotal;
     atk_isGlory := isGlory;
     atk_isRuin := isRuin;
     atk_target :=
       rollAttack_target isMagic isGlory isRuin attackTotal <$> target |}.

Definition targetCard (isMagic : bool) (t : TargetLocals) : TargetCard :=
  {| target_name := tgt_name t;
     target_label := if isMagic then "Magic Resistance" else "Armor";
     target_resistance := tgt_resistance t;
     target_outcomeClass := tgt_outcomeClass t;
     target_outcome := tgt_outcome t;
     target_damage := if decide (tgt_damage t > 0)
                      then Some (tgt_damage t) else None |}.

Definition rollAttack (this : Actor) (dieRoller : DieRoller)
    (approach : string) (target : option Actor) (isMagic : bool)
    (advantage : Z) : ChatMessage :=
  let v := rollAttack_locals this dieRoller approach target isMagic advantage in
  {| speaker := actor_name this;
     flavor := Some {| flavor_approach := approach;
                       flavor_kind := "Attack";
                       flavor_magic := isMagic;
                       flavor_advantage := advantageFlavor advantage |};
     content := AttackContent
       {| attack_rolled := atk_sortedDice v;
          attack_used := if decide (advantage ≠ 0)
                         then Some (atk_selectedDice v) else None;
          attack_math := (atk_selectedDice v, atk_approachValue v, approach,
                          atk_attackTotal v);
          attack_target := targetCard isMagic <$> atk_target v |};
     roll := Some (atk_roll v) |}.

(** ** Stamina *)

(** [this.update({"system.stamina.value": v})]: the value written to the
    actor's data.  The host prepares the actor again before anything else
    reads it; see [hostPrepare]. *)
Definition update_stamina_value (v : Z) (this : Actor) : Actor :=
  {| actor_name := actor_name this;
     actor_type := actor_type this;
     system := {| approaches := approaches (system this);
                  stamina := {| value := v;
                                max := max (stamina (system this)) |};
                  armor := armor (system this);
                  magicResist := magicResist (system this) |};
     items := items this |}.

(** [applyDamage]: the updated actor and the message posted. *)
Definition applyDamage (this : Actor) (damage : Z) : Actor * list ChatMessage :=
  let currentStamina := value (stamina (system this)) in
  let newStamina := Z.max 0 (currentStamina - damage) in
  let this' := update_stamina_value newStamina this in
  let isLethal := bool_decide (newStamina = 0) in
  (this',
   [ {| speaker := actor_name this';
        flavor := None;
        content := DamageContent
          {| damage_lethal := isLethal;
             damage_name := actor_name this';
             damage_amount := damage;
             damage_from := currentStamina;
             damage_to := newStamina;
             damage_warning := isLethal |};
        roll := None |} ]).

(** The local [isLethal] of [applyDamage], as the message shows it. *)
Definition isLethal_of (msgs : list ChatMessage) : option bool :=
  match msgs with
  | [ m ] => match content m with
             | DamageContent c => Some (damage_lethal c)
             | _ => None
             end
  | _ => None
  end.

(** [healStamina]: the actor afterwards and the messages posted. *)
Definition healStamina (this : Actor) (amount : Z) : Actor * list ChatMessage :=
  let currentStamina := value (stamina (system this)) in
  let maxStamina := max (stamina (system this)) in
  let newStamina := Z.min maxStamina (currentStamina + amount) in
  let actualHealing := newStamina - currentStamina in
  if decide (actualHealing > 0) then
    let this' := update_stamina_value newStamina this in
    (this',
     [ {| speaker := actor_name this';
          flavor := None;
          content := HealingContent
            {| healing_name := actor_name this';
               healing_amount := actualHealing;
               healing_from := currentStamina;
               healing_to := newStamina |};
          roll := None |} ])
  else (this, []).

(** ** [prepareDerivedData] *)

(** The body of the [forEach] callback on the two running totals. *)
Definition addEquippedArmor (totals : Z * Z) (item : Item) : Z * Z :=
  let '(totalArmor, totalMagicResist) := totals in
  if bool_decide (item_type item = "armor") && Js.truthy (equipped item)
  then (totalArmor + Js.or_zero (armorValue item),
        totalMagicResist + Js.or_zero (magicResistValue item))
  else (totalArmor, totalMagicResist).

Definition set_resistances (a m : Z) (this : Actor) : Actor :=
  {| actor_name := actor_name this;
     actor_type := actor_type this;
     system := {| approaches := approaches (system this);
                  stamina := stamina (system this);
                  armor := a;
                  magicResist := m |};
     items := items this |}.

Definition prepareDerivedData (this : Actor) : Actor :=
  match items this with
  | Some its =>
      let '(totalArmor, totalMagicResist) :=
        fold_left addEquippedArmor its (0, 0) in
      if decide (actor_type this = "character")
      then set_resistances (Z.min totalArmor 3) (Z.min totalMagicResist 3) this
      else set_resistances totalArmor totalMagicResist this
  | None => this
  end.

(** Descending order: every element is at least each later one. *)
Definition descending : list Z → Prop := StronglySorted (λ a b, b ≤ a).

(** The stamina line of [ActorDataModel.prepareDerivedData], which the host
    runs on [actor.system] whenever the actor's data is prepared. *)
Definition ActorDataModel_clampStamina (s : Stamina) : Stamina :=
  {| value := Js.Math_clamp (value s) 0 (max s); max := max s |}.

(** ** The aggregation in the specification's words
    The sum of a value over the items of type armor flagged equipped. *)

Definition isEquippedArmor (item : Item) : bool :=
  bool_decide (item_type item = "armor") && bool_decide (equipped item = Some true).

Definition equippedArmorSum (field : Item → option Z) (its : list Item) : Z :=
  foldr (λ item acc, default 0 (field item) + acc) 0 (filter isEquippedArmor its).


(** ** Approach names that are not scores
    [approaches] is a plain object, so [approaches[approach]] also finds the
    names every object inherits from [Object.prototype]; what it finds there
    is a function (or, for [__proto__], the prototype object): truthy, and
    not a number.  [rollCheck_locals] and [rollAttack_locals] above are the
    bodies of the two methods for an approach value that is a number; the
    definitions below follow the same lines for every approach name. *)

Definition Object_prototype_names : list string :=
  [ "constructor"; "hasOwnProperty"; "isPrototypeOf"; "propertyIsEnumerable";
    "toLocaleString"; "toString"; "valueOf"; "__proto__";
    "__defineGetter__"; "__defineSetter__";
    "__lookupGetter__"; "__lookupSetter__" ].

(** The value of [approaches[approach] || 0]: a number, or what the name
    inherits. *)
Inductive ApproachValue :=
  | ScoreValue (n : Z)
  | InheritedValue (name : string).

(** The value of [diceTotal + approachValue]: a number, or the string made
    of the dice total followed by the text of the inherited value. *)
Inductive RollTotal :=
  | NumberTotal (n : Z)
  | TextTotal (diceTotal : Z) (name : string).

(** [this.system.approaches[approach] || 0]: an own property hides an
    inherited one. *)
Definition approachValueOf (this : Actor) (approach : string) : ApproachValue :=
  match approaches (system this) !! approach with
  | Some n => ScoreValue (Js.or_zero (Some n))
  | None =>
      if decide (approach ∈ Object_prototype_names)
      then InheritedValue approach
      else ScoreValue (Js.or_zero None)
  end.

(** [diceTotal + approachValue] *)
Definition addApproach (diceTotal : Z) (approachValue : ApproachValue)
    : RollTotal :=
  match approachValue with
  | ScoreValue n => NumberTotal (diceTotal + n)
  | InheritedValue name => TextTotal diceTotal name
  end.

(** [total >= k]: the string is not the text of a number, it converts to
    NaN and every comparison with it is false. *)
Definition total_ge (total : RollTotal) (k : Z) : bool :=
  match total with
  | NumberTotal n => bool_decide (n >= k)
  | TextTotal _ _ => false
  end.

(** [total > k] *)
Definition total_gt (total : RollTotal) (k : Z) : bool :=
  match total with
  | NumberTotal n => bool_decide (n > k)
  | TextTotal _ _ => false
  end.

(** [total === k]: a string is never strictly equal to a number. *)
Definition total_strict_eq (total : RollTotal) (k : Z) : bool :=
  match total with
  | NumberTotal n => bool_decide (n = k)
  | TextTotal _ _ => false
  end.

(** [Math.max(0, total - resistance)]; absent stands for NaN. *)
Definition damageOf (total : RollTotal) (resistance : Z) : option Z :=
  match total with
  | NumberTotal n => Some (Z.max 0 (n - resistance))
  | TextTotal _ _ => None
  end.


Definition checkOutcome_js (isGlory isRuin : bool) (total : RollTotal)
    : string * string :=
  if isGlory then ("GLORY! (6-6)", "glory")
  else if isRuin then ("RUIN! (1-1)", "ruin")
  else if total_ge total 10 then ("SUCCESS!", "success")
  else if total_ge total 6 then ("COMPLICATION", "complication")
  else ("FAILURE", "failure").

(** The local variables of [rollCheck], for every approach name. *)
Record JsCheckLocals := {
  jchk_approachValue : ApproachValue;
  jchk_numDice : Z;
  jchk_roll : Roll;
  jchk_sortedDice : list Z;
  jchk_selectedDice : list Z;
  jchk_diceTotal : Z;
  jchk_total : RollTotal;
  jchk_isGlory : bool;
  jchk_isRuin : bool;
  jchk_outcome : string;
  jchk_outcomeClass : string
}.

Definition rollCheck_js_locals (this : Actor) (dieRoller : DieRoller)
    (approach : string) (advantage : Z) : JsCheckLocals :=
  let approachValue := approachValueOf this approach in
  let numDice := 2 + Z.abs advantage in
  let roll := Roll_evaluate dieRoller numDice 6 in
  let sortedDice := Js.sort compareDesc (roll_results roll) in
  let selectedDice := selectDice advantage sortedDice in
  let diceTotal := Js.reduce_sum selectedDice in
  let total := addApproach diceTotal approachValue in
  let isGlory := Js.strict_eq (selectedDice !! 0%nat) 6
                 && Js.strict_eq (selectedDice !! 1%nat) 6 in
  let isRuin := Js.strict_eq (selectedDice !! 0%nat) 1
                && Js.strict_eq (selectedDice !! 1%nat) 1 in
  let decided := checkOutcome_js isGlory isRuin total in
  let outcome := decided.1 in
  let outcomeClass := decided.2 in
  {| jchk_approachValue := approachValue;
     jchk_numDice := numDice;
     jchk_roll := roll;
     jchk_sortedDice := sortedDice;
     jchk_selectedDice := selectedDice;
     jchk_diceTotal := diceTotal;
     jchk_total := total;
     jchk_isGlory := isGlory;
     jchk_isRuin := isRuin;
     jchk_outcome := outcome;
     jchk_outcomeClass := outcomeClass |}.




Definition attackOutcome_js (isGlory isRuin : bool) (attackTotal : RollTotal)
    (resistance : Z) : string * string :=
  if isGlory then ("GLORY!", "glory")
  else if isRuin then ("RUIN!", "ruin")
  else if total_gt attackTotal resistance then ("HIT!", "success")
  else if total_strict_eq attackTotal resistance
  then ("BLOCKED", "complication")
  else ("MISS", "failure").

(** The local variables of the [if (target)] block, for every approach
    name. *)
Record JsTargetLocals := {
  jtgt_name : string;
  jtgt_resistance : Z;
  jtgt_damage : option Z;
  jtgt_outcome : string;
  jtgt_outcomeClass : string
}.

Definition rollAttack_js_target (isMagic isGlory isRuin : bool)
    (attackTotal : RollTotal) (target : Actor) : JsTargetLocals :=
  let resistance := if isMagic then magicResist (system target)
                    else armor (system target) in
  let damage := damageOf attackTotal resistance in
  let decided := attackOutcome_js isGlory isRuin attackTotal resistance in
  let outcome := decided.1 in
  let outcomeClass := decided.2 in
  {| jtgt_name := actor_name target;
     jtgt_resistance := resistance;
     jtgt_damage := damage;
     jtgt_outcome := outcome;
     jtgt_outcomeClass := outcomeClass |}.

(** The local variables of [rollAttack], for every approach name. *)
Record JsAttackLocals := {
  jatk_approachValue : ApproachValue;
  jatk_numDice : Z;
  jatk_roll : Roll;
  jatk_sortedDice : list Z;
  jatk_selectedDice : list Z;
  jatk_diceTotal : Z;
  jatk_attackTotal : RollTotal;
  jatk_isGlory : bool;
  jatk_isRuin : bool;
  jatk_target : option JsTargetLocals
}.

Definition rollAttack_js_locals (this : Actor) (dieRoller : DieRoller)
    (approach : string) (target : option Actor) (isMagic : bool)
    (advantage : Z) : JsAttackLocals :=
  let approachValue := approachValueOf this approach in
  let numDice := 2 + Z.abs advantage in
  let roll := Roll_evaluate dieRoller numDice 6 in
  let sortedDice := Js.sort compareDesc (roll_results roll) in
  let selectedDice := selectDice advantage sortedDice in
  let diceTotal := Js.reduce_sum selectedDice in
  let attackTotal := addApproach diceTotal approachValue in
  let isGlory := Js.strict_eq (selectedDice !! 0%nat) 6
                 && Js.strict_eq (selectedDice !! 1%nat) 6 in
  let isRuin := Js.strict_eq (selectedDice !! 0%nat) 1
                && Js.strict_eq (selectedDice !! 1%nat) 1 in
  {| jatk_approachValue := approachValue;
     jatk_numDice := numDice;
     jatk_roll := roll;
     jatk_sortedDice := sortedDice;
     jatk_selectedDice := selectedDice;
     jatk_diceTotal := diceTotal;
     jatk_attackTotal := attackTotal;
     jatk_isGlory := isGlory;
     jatk_isRuin := isRuin;
     jatk_target :=
       rollAttack_js_target isMagic isGlory isRuin attackTotal <$> target |}.







(** ** What later calls read
    After every [update] the host prepares the actor again: the data
    model's [prepareDerivedData] clamps the stamina, then the actor's own
    [prepareDerivedData] runs.  A method called afterwards reads the actor
    so prepared. *)
Definition hostPrepare (this : Actor) : Actor :=
  prepareDerivedData
    {| actor_name := actor_name this;
       actor_type := actor_type this;
       system := {| approaches := approaches (system this);
                    stamina := ActorDataModel_clampStamina
                                 (stamina (system this));
                    armor := armor (system this);
                    magicResist := magicResist (system this) |};
       items := items this |}.

(** ** [RuneItem] *)

(** [this.update({"system.equipped": v})] on an item. *)
Definition update_equipped (v : bool) (this : Item) : Item :=
  {| item_type := item_type this;
     equipped := Some v;
     armorValue := armorValue this;
     magicResistValue := magicResistValue this |}.

(** [toggleEquipped]: only an item that has the field is updated. *)
Definition toggleEquipped (this : Item) : Item :=
  match equipped this with
  | Some b => update_equipped (negb b) this
  | None => this
  end.

(** The actor with its embedded items replaced. *)
Definition with_items (its : list Item) (this : Actor) : Actor :=
  {| actor_name := actor_name this;
     actor_type := actor_type this;
     system := system this;
     items := Some its |}.

(** An actor's stamina is prepared when the data model's clamp leaves it as
    it is, which is how the host hands [actor.system] to the rules. *)
Definition staminaPrepared (this : Actor) : Prop :=
  ActorDataModel_clampStamina (stamina (system this)) = stamina (system this).

(** ** [RuneActorSheet] *)

(** What [_prepareCharacterData] adds to the sheet context; the total is
    absent (NaN) when one of the three scores is. *)
Record CharacterContext := {
  ctx_totalApproaches : option Z;
  ctx_armorOverLimit : bool;
  ctx_magicResistOverLimit : bool
}.

Definition _prepareCharacterData (sys : ActorSystem) : CharacterContext :=
  {| ctx_totalApproaches :=
       might ← approaches sys !! "might";
       guile ← approaches sys !! "guile";
       vision ← approaches sys !! "vision";
       Some (might + guile + vision);
     ctx_armorOverLimit := bool_decide (armor sys > 3);
     ctx_magicResistOverLimit := bool_decide (magicResist sys > 3) |}.

Definition _prepareNPCData (sys : ActorSystem) : CharacterContext :=
  _prepareCharacterData sys.

(** The branch of [getData] on the actor type, for the limits it puts in the
    context: a character and an npc get those of [_prepareCharacterData];
    a creature, whose branch sets another flag, and any other type get
    none. *)
Definition getData_limits (actor : Actor) : option CharacterContext :=
  if decide (actor_type actor = "character")
  then Some (_prepareCharacterData (system actor))
  else if decide (actor_type actor = "npc")
  then Some (_prepareNPCData (system actor))
  else None.

(** An item of the sheet context: the fields [_prepareItems] reads. *)
Record ContextItem := {
  ci_name : string;
  ci_type : string;
  ci_img : option string
}.

(** The five arrays [_prepareItems] stores in the context. *)
Record ItemBuckets := {
  bucket_equipment : list ContextItem;
  bucket_weapons : list ContextItem;
  bucket_armor : list ContextItem;
  bucket_spells : list ContextItem;
  bucket_traits : list ContextItem
}.

(** [img || fallback]: an absent or empty string is falsy. *)
Definition or_string (img : option string) (fallback : string) : string :=
  match img with
  | Some s => if decide (s = "") then fallback else s
  | None => fallback
  end.

(** [i.img = i.img || DEFAULT_TOKEN] *)
Definition withDefaultImg (DEFAULT_TOKEN : string) (i : ContextItem)
    : ContextItem :=
  {| ci_name := ci_name i;
     ci_type := ci_type i;
     ci_img := Some (or_string (ci_img i) DEFAULT_TOKEN) |}.

(** The [push] of one item into the array of its type, if it has one. *)
Definition pushByType (b : ItemBuckets) (i : ContextItem) : ItemBuckets :=
  if decide (ci_type i = "equipment") then
    {| bucket_equipment := bucket_equipment b ++ [i];
       bucket_weapons := bucket_weapons b;
       bucket_armor := bucket_armor b;
       bucket_spells := bucket_spells b;
       bucket_traits := bucket_traits b |}
  else if decide (ci_type i = "weapon") then
    {| bucket_equipment := bucket_equipment b;
       bucket_weapons := bucket_weapons b ++ [i];
       bucket_armor := bucket_armor b;
       bucket_spells := bucket_spells b;
       bucket_traits := bucket_traits b |}
  else if decide (ci_type i = "armor") then
    {| bucket_equipment := bucket_equipment b;
       bucket_weapons := bucket_weapons b;
       bucket_armor := bucket_armor b ++ [i];
       bucket_spells := bucket_spells b;
       bucket_traits := bucket_traits b |}
  else if decide (ci_type i = "spell") then
    {| bucket_equipment := bucket_equipment b;
       bucket_weapons := bucket_weapons b;
       bucket_armor := bucket_armor b;
       bucket_spells := bucket_spells b ++ [i];
       bucket_traits := bucket_traits b |}
  else if decide (ci_type i = "trait") then
    {| bucket_equipment := bucket_equipment b;
       bucket_weapons := bucket_weapons b;
       bucket_armor := bucket_armor b;
       bucket_spells := bucket_spells b;
       bucket_traits := bucket_traits b ++ [i] |}
  else b.

(** One turn of the loop of [_prepareItems]: the item gets its image, in
    place, and is pushed. *)
Definition allocateItem (DEFAULT_TOKEN : string)
    (acc : list ContextItem * ItemBuckets) (i : ContextItem)
    : list ContextItem * ItemBuckets :=
  let i' := withDefaultImg DEFAULT_TOKEN i in
  (acc.1 ++ [i'], pushByType acc.2 i').

Definition emptyBuckets : ItemBuckets :=
  {| bucket_equipment := [];
     bucket_weapons := [];
     bucket_armor := [];
     bucket_spells := [];
     bucket_traits := [] |}.

(** [_prepareItems]: [context.items] as the loop leaves it, and the arrays. *)
Definition _prepareItems (DEFAULT_TOKEN : string) (contextItems : list ContextItem)
    : list ContextItem * ItemBuckets :=
  fold_left (allocateItem DEFAULT_TOKEN) contextItems ([], emptyBuckets).

(** The types [_prepareItems] has an array for. *)
Definition sheetTypes : list string :=
  ["equipment"; "weapon"; "armor"; "spell"; "trait"].

(** ** The [window.RUNE] helpers
    [game.actors] is a map from actor id to actor; a call returns what the
    actor's method returns, if it is reached, and the error notifications
    shown. *)

(** Truthiness of an optional string argument. *)
Definition truthy_string (v : option string) : bool :=
  match v with
  | Some s => bool_decide (s ≠ "")
  | None => false
  end.

Definition RUNE_rollCheck (actors : gmap string Actor) (dieRoller : DieRoller)
    (actorId approach : string) (advantage : Z)
    : option ChatMessage * list string :=
  match actors !! actorId with
  | None => (None, ["Actor not found!"])
  | Some actor => (Some (rollCheck actor dieRoller approach advantage), [])
  end.

Definition RUNE_rollAttack (actors : gmap string Actor) (dieRoller : DieRoller)
    (actorId approach : string) (targetId : option string) (isMagic : bool)
    (advantage : Z) : option ChatMessage * list string :=
  match actors !! actorId with
  | None => (None, ["Actor not found!"])
  | Some actor =>
      let target := if truthy_string targetId
                    then targetId ≫= (λ id, actors !! id)
                    else None in
      (Some (rollAttack actor dieRoller approach target isMagic advantage), [])
  end.

(** ** Fixtures: scripted dice and sample actors *)

(** A roller that deals the listed values in order (then ones), capped at
    the number of faces asked for. *)
Definition scriptedRoller (script : list Z) : DieRoller :=
  λ faces i, Z.min faces (default 1 (script !! i)).

Definition sampleActor (type : string) (scores : gmap string Z)
    (staminaValue staminaMax armorNow magicResistNow : Z)
    (its : option (list Item)) : Actor :=
  {| actor_name := "Sample";
     actor_type := type;
     system := {| approaches := scores;
                  stamina := {| value := staminaValue; max := staminaMax |};
                  armor := armorNow;
                  magicResist := magicResistNow |};
     items := its |}.

(** A character with the given Might, stamina 5 of 10 and no items. *)
Definition hero (might : Z) : Actor :=
  sampleActor "character" {[ "might" := might ]} 5 10 0 0 (Some []).

(** A creature with the given armour and magic resistance. *)
Definition foe (armorNow magicResistNow : Z) : Actor :=
  sampleActor "creature" ∅ 5 10 armorNow magicResistNow (Some []).

(** A piece of armour. *)
Definition armorPiece (worn : bool) (armorPoints magicPoints : Z) : Item :=
  {| item_type := "armor";
     equipped := Some worn;
     armorValue := Some armorPoints;
     magicResistValue := Some magicPoints |}.

(** Two worn pieces worth 5 armour and 4 magic resistance, one piece not
    worn, and a weapon. *)
Definition heavyKit : list Item :=
  [ armorPiece true 3 1;
    armorPiece false 3 3;
    {| item_type := "weapon"; equipped := Some true;
       armorValue := None; magicResistValue := None |};
    armorPiece true 2 3 ].

(** An actor of the given type carrying [heavyKit]. *)
Definition armoured (type : string) : Actor :=
  sampleActor type ∅ 5 10 0 0 (Some heavyKit).

(** A spell, whose schema has no [equipped] field. *)
Definition scroll : Item :=
  {| item_type := "spell"; equipped := None;
     armorValue := None; magicResistValue := None |}.

(** Sheet items: a sword without image, a potion of a type the sheet has no
    array for, and a helmet with its own image. *)
Definition sheetItems : list ContextItem :=
  [ {| ci_name := "Sword"; ci_type := "weapon"; ci_img := None |};
    {| ci_name := "Potion"; ci_type := "consumable"; ci_img := Some "" |};
    {| ci_name := "Helmet"; ci_type := "armor";
       ci_img := Some "icons/helmet.svg" |} ].

(** A world with one character, known as "hero", and one creature, "foe". *)
Definition world : gmap string Actor :=
  {[ "hero" := hero 4; "foe" := foe 4 0 ]}.

(** A character whose stamina and maximum stamina are both -1. *)
Definition drained : Actor :=
  sampleActor "character" ∅ (-1) (-1) 0 0 (Some []).

(** * Properties *)

(** ** Sorting and slicing *)

Section sorting.
Implicit Types (l : list Z) (x : Z).

Lemma sort_insert_perm compareFn x l :
  Js.sort_insert compareFn x l ≡ₚ x :: l.
Proof.
  induction l as [|y l IH]; simpl; [done|].
  case_decide; [done|].
  rewrite IH. apply Permutation_swap.
Qed.

Lemma sort_perm compareFn l : Js.sort compareFn l ≡ₚ l.
Proof.
  induction l as [|y l IH]; simpl; [done|].
  unfold Js.sort in *. rewrite sort_insert_perm. by f_equiv.
Qed.

Lemma sort_length compareFn l : length (Js.sort compareFn l) = length l.
Proof. apply Permutation_length, sort_perm. Qed.

Lemma sort_insert_descending x l :
  descending l → descending (Js.sort_insert compareDesc x l).
Proof.
  unfold descending, compareDesc.
  induction 1 as [|y l Hl IH Hy]; simpl.
  - repeat constructor.
  - case_decide.
    + constructor; [by constructor|].
      constructor; [lia|].
      eapply Forall_impl; [exact Hy|]. simpl. lia.
    + constructor; [exact IH|].
      rewrite sort_insert_perm. constructor; [lia|exact Hy].
Qed.

Lemma sort_descending l : descending (Js.sort compareDesc l).
Proof.
  induction l as [|y l IH]; simpl; [constructor|].
  by apply sort_insert_descending.
Qed.

Lemma descending_split l (n : nat) x1 x2 :
  descending l → x1 ∈ take n l → x2 ∈ drop n l → x2 ≤ x1.
Proof.
  intros Hl H1 H2. rewrite <-(take_drop n l) in Hl.
  exact (StronglySorted_app_1_elem_of _ _ _ _ _ Hl H1 H2).
Qed.
End sorting.

Section slicing.
Context {A : Type}.
Implicit Types (l : list A).

Lemma slice_first_two l :
  (2 ≤ length l)%nat → Js.slice 0 (Some 2) l = take 2 l.
Proof.
  intros Hl. unfold Js.slice, Js.relative_index.
  repeat case_decide; try lia.
  replace (Z.min 0 (Z.of_nat (length l))) with 0 by lia.
  replace (Z.min 2 (Z.of_nat (length l))) with 2 by lia.
  done.
Qed.

Lemma slice_last_two l :
  (2 ≤ length l)%nat → Js.slice (-2) None l = drop (length l - 2) l.
Proof.
  intros Hl. unfold Js.slice, Js.relative_index.
  case_decide; [|lia].
  replace (Z.max (Z.of_nat (length l) + -2) 0)
    with (Z.of_nat (length l - 2)) by lia.
  rewrite Nat2Z.id. apply take_ge. rewrite length_drop. lia.
Qed.
End slicing.

Lemma Roll_evaluate_length dieRoller numDice faces :
  Z.of_nat (length (roll_results (Roll_evaluate dieRoller numDice faces)))
  = Z.max 0 numDice.
Proof. simpl. rewrite length_fmap, length_seq. lia. Qed.

Lemma Roll_evaluate_faces dieRoller numDice faces :
  conforming dieRoller → 1 ≤ faces →
  Forall (λ d, 1 ≤ d ≤ faces)
    (roll_results (Roll_evaluate dieRoller numDice faces)).
Proof.
  intros Hc Hf. simpl. apply Forall_fmap, Forall_forall.
  intros i _. simpl. by apply Hc.
Qed.

(** What [selectDice] keeps of a descending pool of [2 + |advantage|] dice. *)
Lemma selectDice_length advantage sortedDice :
  Z.of_nat (length sortedDice) = 2 + Z.abs advantage →
  length (selectDice advantage sortedDice) = 2%nat.
Proof.
  intros Hn. unfold selectDice.
  repeat case_decide;
    rewrite ?slice_first_two, ?slice_last_two by lia;
    rewrite ?length_take, ?length_drop; lia.
Qed.

Lemma selectDice_highest advantage sortedDice :
  Z.of_nat (length sortedDice) = 2 + Z.abs advantage →
  descending sortedDice →
  advantage > 0 →
  ∃ rest, sortedDice ≡ₚ selectDice advantage sortedDice ++ rest
          ∧ ∀ s x, s ∈ selectDice advantage sortedDice → x ∈ rest → x ≤ s.
Proof.
  intros Hn Hd Ha. exists (drop 2 sortedDice).
  unfold selectDice. case_decide; [|lia].
  rewrite slice_first_two by lia. split.
  - by rewrite take_drop.
  - intros s x Hs Hx. by eapply descending_split.
Qed.

Lemma selectDice_lowest advantage sortedDice :
  Z.of_nat (length sortedDice) = 2 + Z.abs advantage →
  descending sortedDice →
  advantage < 0 →
  ∃ rest, sortedDice ≡ₚ selectDice advantage sortedDice ++ rest
          ∧ ∀ s x, s ∈ selectDice advantage sortedDice → x ∈ rest → s ≤ x.
Proof.
  intros Hn Hd Ha. exists (take (length sortedDice - 2) sortedDice).
  unfold selectDice. case_decide; [lia|]. case_decide; [|lia].
  rewrite slice_last_two by lia. split.
  - by rewrite (comm (++)), take_drop.
  - intros s x Hs Hx. by eapply descending_split.
Qed.

Lemma selectDice_all advantage sortedDice :
  Z.of_nat (length sortedDice) = 2 + Z.abs advantage →
  advantage = 0 →
  selectDice advantage sortedDice = sortedDice.
Proof.
  intros Hn ->. unfold selectDice. repeat case_decide; try lia.
  rewrite slice_first_two by lia. apply take_ge. lia.
Qed.

Lemma scriptedRoller_conforming script :
  Forall (λ d, 1 ≤ d) script → conforming (scriptedRoller script).
Proof.
  intros Hs faces i Hf. unfold scriptedRoller.
  destruct (script !! i) as [d|] eqn:Hd; simpl; [|lia].
  rewrite Forall_forall in Hs.
  pose proof (Hs d (list_elem_of_lookup_2 _ _ _ Hd)). lia.
Qed.

(** ** Checks *)

Lemma rollCheck_sortedDice_length this dieRoller approach advantage :
  Z.of_nat (length (chk_sortedDice
    (rollCheck_locals this dieRoller approach advantage)))
  = 2 + Z.abs advantage.
Proof.
  unfold rollCheck_locals. cbn [chk_sortedDice].
  rewrite sort_length, Roll_evaluate_length. lia.
Qed.

(** C1. For every integer advantage and every conforming die roller, a check
    rolls a pool of exactly [2 + |advantage|] six-sided dice and selects
    exactly two of them: the selected dice are part of the pool, no die left
    out is larger than a selected one when [advantage > 0], none is smaller
    when [advantage < 0], and nothing is left out when [advantage = 0]. *)
Theorem rollCheck_pool_and_selection (this : Actor) (dieRoller : DieRoller)
    (approach : string) (advantage : Z) :
  conforming dieRoller →
  let v := rollCheck_locals this dieRoller approach advantage in
  let pool := roll_results (chk_roll v) in
  let selected := chk_selectedDice v in
  Z.of_nat (length pool) = 2 + Z.abs advantage
  ∧ roll_faces (chk_roll v) = 6
  ∧ Forall (λ d, 1 ≤ d ≤ 6) pool
  ∧ length selected = 2%nat
  ∧ ∃ rest, pool ≡ₚ selected ++ rest
      ∧ (advantage > 0 → ∀ s x, s ∈ selected → x ∈ rest → x ≤ s)
      ∧ (advantage < 0 → ∀ s x, s ∈ selected → x ∈ rest → s ≤ x)
      ∧ (advantage = 0 → rest = []).
Proof.
  intros Hc v pool selected.
  pose proof (rollCheck_sortedDice_length this dieRoller approach advantage)
    as Hlen.
  fold v in Hlen.
  assert (Hsorted : chk_sortedDice v = Js.sort compareDesc pool) by done.
  assert (Hsel : selected = selectDice advantage (chk_sortedDice v)) by done.
  assert (Hroll : chk_roll v = Roll_evaluate dieRoller (2 + Z.abs advantage) 6)
    by done.
  assert (Hperm : pool ≡ₚ chk_sortedDice v).
  { rewrite Hsorted. symmetry. apply sort_perm. }
  assert (Hdesc : descending (chk_sortedDice v)).
  { rewrite Hsorted. apply sort_descending. }
  split; [|split; [|split; [|split]]].
  - subst pool. rewrite Hroll, Roll_evaluate_length. lia.
  - by rewrite Hroll.
  - subst pool. rewrite Hroll. by apply Roll_evaluate_faces.
  - rewrite Hsel. by apply selectDice_length.
  - rewrite Hsel.
    destruct (Z.lt_trichotomy advantage 0) as [Hneg|[Hzero|Hpos]].
    + destruct (selectDice_lowest _ _ Hlen Hdesc Hneg) as (rest & Hp & Hlow).
      exists rest. rewrite Hperm. repeat split; [done|lia|done|lia].
    + exists []. rewrite (selectDice_all _ _ Hlen Hzero), app_nil_r.
      repeat split; [done|lia|lia].
    + assert (Hgt : advantage > 0) by lia.
      destruct (selectDice_highest _ _ Hlen Hdesc Hgt) as (rest & Hp & Hhigh).
      exists rest. rewrite Hperm. repeat split; [done|done|lia|lia].
Qed.

Lemma rollCheck_pool_and_selection_witness :
  conforming (scriptedRoller [6; 6; 3])
  ∧ length (chk_selectedDice
      (rollCheck_locals (hero 2) (scriptedRoller [6; 6; 3]) "might" 1)) = 2%nat.
Proof.
  assert (Hc : conforming (scriptedRoller [6; 6; 3])).
  { apply scriptedRoller_conforming. repeat constructor; lia. }
  split; [exact Hc|].
  exact (proj1 (proj2 (proj2 (proj2
    (rollCheck_pool_and_selection (hero 2) _ "might" 1 Hc))))).
Defined.

Lemma selectedDice_pair advantage sortedDice :
  Z.of_nat (length sortedDice) = 2 + Z.abs advantage →
  ∃ d0 d1, selectDice advantage sortedDice = [d0; d1].
Proof.
  intros Hn. pose proof (selectDice_length _ _ Hn) as Hlen.
  destruct (selectDice advantage sortedDice) as [|d0 [|d1 [|? ?]]];
    try discriminate Hlen.
  by exists d0, d1.
Qed.

Lemma reduce_sum_pair (d0 d1 : Z) : Js.reduce_sum [d0; d1] = d0 + d1.
Proof. unfold Js.reduce_sum. simpl. lia. Qed.

Lemma strict_eq_pair (d0 d1 k : Z) :
  Js.strict_eq ([d0; d1] !! 0%nat) k && Js.strict_eq ([d0; d1] !! 1%nat) k
  = bool_decide (d0 = k ∧ d1 = k).
Proof.
  unfold Js.strict_eq. simpl. rewrite bool_decide_and.
  f_equal; apply bool_decide_ext; split; congruence.
Qed.

Lemma checkOutcome_class (d0 d1 total : Z) :
  (checkOutcome
     (Js.strict_eq ([d0; d1] !! 0%nat) 6 && Js.strict_eq ([d0; d1] !! 1%nat) 6)
     (Js.strict_eq ([d0; d1] !! 0%nat) 1 && Js.strict_eq ([d0; d1] !! 1%nat) 1)
     total).2 =
    if decide (d0 = 6 ∧ d1 = 6) then "glory"
    else if decide (d0 = 1 ∧ d1 = 1) then "ruin"
    else if decide (total >= 10) then "success"
    else if decide (total >= 6) then "complication"
    else "failure".
Proof.
  rewrite !strict_eq_pair. unfold checkOutcome.
  repeat case_bool_decide; repeat case_decide; done.
Qed.



(** ** Attacks *)


(** The dice of an attack are those of a check made with the same actor,
    roller, approach and advantage. *)
Lemma rollAttack_as_check this dieRoller approach target isMagic advantage :
  let c := rollCheck_locals this dieRoller approach advantage in
  let v := rollAttack_locals this dieRoller approach target isMagic advantage in
  atk_approachValue v = chk_approachValue c
  ∧ atk_numDice v = chk_numDice c
  ∧ atk_roll v = chk_roll c
  ∧ atk_sortedDice v = chk_sortedDice c
  ∧ atk_selectedDice v = chk_selectedDice c
  ∧ atk_diceTotal v = chk_diceTotal c
  ∧ atk_attackTotal v = chk_total c
  ∧ atk_isGlory v = chk_isGlory c
  ∧ atk_isRuin v = chk_isRuin c.
Proof. by repeat split. Qed.




(** C8. For every attack roll without a target the [if (target)] block is
    not entered: no outcome and no damage are computed, and the message
    holds the rolled dice, the selected dice, the line of the sum (selected
    dice, approach value and name, attack total) and no target block. *)
Theorem rollAttack_no_target (this : Actor) (dieRoller : DieRoller)
    (approach : string) (isMagic : bool) (advantage : Z) :
  let v := rollAttack_locals this dieRoller approach None isMagic advantage in
  atk_target v = None
  ∧ content (rollAttack this dieRoller approach None isMagic advantage)
    = AttackContent
        {| attack_rolled := atk_sortedDice v;
           attack_used := if decide (advantage ≠ 0)
                          then Some (atk_selectedDice v) else None;
           attack_math := (atk_selectedDice v, atk_approachValue v, approach,
                           atk_attackTotal v);
           attack_target := None |}.
Proof. by split. Qed.

(** ** Approaches *)


Lemma approachValueOf_inherited (this : Actor) (approach : string) :
  approaches (system this) !! approach = None →
  approach ∈ Object_prototype_names →
  approachValueOf this approach = InheritedValue approach.
Proof.
  intros Hnone Hname. unfold approachValueOf.
  by rewrite Hnone, decide_True.
Qed.









(** For a name that only [Object.prototype] knows, the total of a check is a
    string and its tier is glory, ruin or failure; an attack on a target
    has no damage and is a glory, a ruin or a miss. *)
Lemma inherited_approach_rolls this dieRoller approach target isMagic
    advantage :
  approaches (system this) !! approach = None →
  approach ∈ Object_prototype_names →
  jchk_approachValue (rollCheck_js_locals this dieRoller approach advantage)
  = InheritedValue approach
  ∧ jchk_total (rollCheck_js_locals this dieRoller approach advantage)
    = TextTotal
        (jchk_diceTotal (rollCheck_js_locals this dieRoller approach advantage))
        approach
  ∧ jchk_outcomeClass (rollCheck_js_locals this dieRoller approach advantage)
    ∈ ["glory"; "ruin"; "failure"]
  ∧ ∃ t, jatk_target
           (rollAttack_js_locals this dieRoller approach (Some target) isMagic
              advantage) = Some t
         ∧ jtgt_damage t = None
         ∧ jtgt_outcome t ∈ ["GLORY!"; "RUIN!"; "MISS"].
Proof.
  intros Hnone Hname.
  pose proof (approachValueOf_inherited _ _ Hnone Hname) as Hvalue.
  unfold rollCheck_js_locals, rollAttack_js_locals.
  cbn [jchk_approachValue jchk_total jchk_outcomeClass jchk_diceTotal
       jatk_target].
  rewrite Hvalue. cbn [addApproach].
  split; [done|]. split; [done|]. split.
  - unfold checkOutcome_js. cbn [total_ge].
    repeat case_match; cbn [snd]; rewrite !elem_of_cons; auto.
  - eexists. split; [reflexivity|].
    cbn [rollAttack_js_target jtgt_damage jtgt_outcome damageOf].
    split; [done|].
    unfold attackOutcome_js. cbn [total_gt total_strict_eq].
    repeat case_match; cbn [fst]; rewrite !elem_of_cons; auto.
Qed.

(** ** Armour aggregation *)

Lemma truthy_equipped (e : option bool) :
  Js.truthy e = bool_decide (e = Some true).
Proof. by destruct e as [[]|]. Qed.

Lemma or_zero_default (v : option Z) : Js.or_zero v = default 0 v.
Proof. destruct v as [n|]; simpl; [|done]. by case_decide. Qed.

Lemma addEquippedArmor_step (item : Item) (totalArmor totalMagicResist : Z) :
  addEquippedArmor (totalArmor, totalMagicResist) item
  = if isEquippedArmor item
    then (totalArmor + default 0 (armorValue item),
          totalMagicResist + default 0 (magicResistValue item))
    else (totalArmor, totalMagicResist).
Proof.
  unfold addEquippedArmor, isEquippedArmor.
  by rewrite truthy_equipped, !or_zero_default.
Qed.

Lemma equippedArmorSum_cons (field : Item → option Z) item its :
  equippedArmorSum field (item :: its)
  = if isEquippedArmor item
    then default 0 (field item) + equippedArmorSum field its
    else equippedArmorSum field its.
Proof.
  unfold equippedArmorSum. rewrite filter_cons.
  by destruct (isEquippedArmor item).
Qed.

Lemma forEach_totals (its : list Item) (totalArmor totalMagicResist : Z) :
  fold_left addEquippedArmor its (totalArmor, totalMagicResist)
  = (totalArmor + equippedArmorSum armorValue its,
     totalMagicResist + equippedArmorSum magicResistValue its).
Proof.
  revert totalArmor totalMagicResist.
  induction its as [|item its IH]; intros a m.
  - unfold equippedArmorSum. simpl. f_equal; lia.
  - cbn [fold_left]. rewrite addEquippedArmor_step, !equippedArmorSum_cons.
    destruct (isEquippedArmor item); rewrite IH; f_equal; lia.
Qed.

(** C5. After [prepareDerivedData] on an actor that has items, a character's
    armour and magic resistance are the sums of [armorValue] and
    [magicResistValue] over its equipped items of type armor, capped at 3,
    so neither exceeds 3; for any other actor type (creature, npc) they are
    the sums themselves. *)
Theorem prepareDerivedData_armor_clamp (this : Actor) (its : list Item) :
  items this = Some its →
  let totalArmor := equippedArmorSum armorValue its in
  let totalMagicResist := equippedArmorSum magicResistValue its in
  let derived := system (prepareDerivedData this) in
  (actor_type this = "character" →
     armor derived = Z.min totalArmor 3
     ∧ magicResist derived = Z.min totalMagicResist 3
     ∧ armor derived ≤ 3 ∧ magicResist derived ≤ 3)
  ∧ (actor_type this ≠ "character" →
     armor derived = totalArmor ∧ magicResist derived = totalMagicResist).
Proof.
  intros Hits totalArmor totalMagicResist derived.
  subst derived. unfold prepareDerivedData.
  rewrite Hits, forEach_totals, !Z.add_0_l.
  fold totalArmor totalMagicResist.
  split; intros Htype.
  - rewrite decide_True by done. simpl. lia.
  - rewrite decide_False by done. done.
Qed.

Lemma prepareDerivedData_armor_clamp_witness :
  equippedArmorSum armorValue heavyKit = 5
  ∧ armor (system (prepareDerivedData (armoured "character"))) = 3
  ∧ armor (system (prepareDerivedData (armoured "creature"))) = 5.
Proof.
  destruct (prepareDerivedData_armor_clamp (armoured "character") heavyKit
              eq_refl) as [Hpc _].
  destruct (prepareDerivedData_armor_clamp (armoured "creature") heavyKit
              eq_refl) as [_ Hmonster].
  split; [reflexivity|]. split.
  - destruct (Hpc eq_refl) as (-> & _). reflexivity.
  - destruct Hmonster as (-> & _); [|reflexivity].
    vm_compute. discriminate.
Defined.

(** ** Stamina *)

Lemma update_stamina_value_same (this : Actor) :
  update_stamina_value (value (stamina (system this))) this = this.
Proof. by destruct this as [? ? [? [? ?] ? ?] ?]. Qed.

(** The actor [drained] is as the data model's stamina clamp leaves it. *)
Lemma drained_prepared :
  ActorDataModel_clampStamina (stamina (system drained))
  = stamina (system drained).
Proof. reflexivity. Qed.

(** C6, as the code has it. For every current stamina and amount,
    [applyDamage] sets the stamina to [max 0 (currentStamina - amount)],
    changes nothing else of the actor, and reports [isLethal] exactly when
    the new stamina is 0; zero damage leaves a stamina that is not negative
    where it was. *)
Theorem applyDamage_clamps_at_zero (this : Actor) (damage : Z) :
  let currentStamina := value (stamina (system this)) in
  let newStamina := Z.max 0 (currentStamina - damage) in
  let result := applyDamage this damage in
  result.1 = update_stamina_value newStamina this
  ∧ value (stamina (system result.1)) = newStamina
  ∧ (∃ isLethal, isLethal_of result.2 = Some isLethal
                 ∧ (isLethal = true ↔ newStamina = 0))
  ∧ (0 ≤ currentStamina → (applyDamage this 0).1 = this).
Proof.
  intros currentStamina newStamina result.
  split; [reflexivity|]. split; [reflexivity|]. split.
  - exists (bool_decide (newStamina = 0)). split; [reflexivity|].
    apply bool_decide_eq_true.
  - intros Hpos. unfold applyDamage. cbn [fst].
    replace (Z.max 0 (value (stamina (system this)) - 0))
      with (value (stamina (system this))) by (subst currentStamina; lia).
    apply update_stamina_value_same.
Qed.

Lemma applyDamage_clamps_at_zero_witness :
  0 ≤ value (stamina (system (hero 0))) ∧ (applyDamage (hero 0) 0).1 = hero 0.
Proof.
  assert (Hpos : 0 ≤ value (stamina (system (hero 0)))) by (simpl; lia).
  split; [exact Hpos|].
  exact (proj2 (proj2 (proj2 (applyDamage_clamps_at_zero (hero 0) 7))) Hpos).
Defined.

(** C6 fails as stated: with stamina -1, zero damage moves the stamina to 0. *)
Lemma applyDamage_zero_moves_negative_stamina :
  value (stamina (system drained)) = -1
  ∧ value (stamina (system (applyDamage drained 0).1))
    ≠ value (stamina (system drained)).
Proof. split; [reflexivity|]. vm_compute. discriminate. Qed.

(** C9. Whenever [min maxStamina (currentStamina + amount)] does not exceed
    the current stamina, which covers every negative amount and every call
    at full stamina, [healStamina] returns the actor as it was and posts no
    message; and in no case is the stamina afterwards below what it was. *)
Theorem healStamina_no_gain_no_effect (this : Actor) (amount : Z) :
  let currentStamina := value (stamina (system this)) in
  let maxStamina := max (stamina (system this)) in
  (Z.min maxStamina (currentStamina + amount) ≤ currentStamina →
     healStamina this amount = (this, []))
  ∧ (amount < 0 → healStamina this amount = (this, []))
  ∧ (currentStamina = maxStamina → healStamina this amount = (this, []))
  ∧ currentStamina ≤ value (stamina (system (healStamina this amount).1)).
Proof.
  intros currentStamina maxStamina.
  assert (Hskip : Z.min maxStamina (currentStamina + amount) ≤ currentStamina →
                  healStamina this amount = (this, [])).
  { intros Hle. unfold healStamina. fold currentStamina maxStamina.
    rewrite decide_False by lia. reflexivity. }
  split; [exact Hskip|]. split; [|split].
  - intros Hneg. apply Hskip. lia.
  - intros Hfull. apply Hskip. lia.
  - destruct (decide (Z.min maxStamina (currentStamina + amount)
                      ≤ currentStamina)) as [Hle|Hgt].
    + rewrite (Hskip Hle). simpl. reflexivity.
    + unfold healStamina. fold currentStamina maxStamina.
      rewrite decide_True by lia. simpl. lia.
Qed.

Lemma healStamina_no_gain_no_effect_witness :
  -3 < 0 ∧ healStamina (hero 0) (-3) = (hero 0, []).
Proof.
  assert (Hneg : -3 < 0) by lia.
  split; [exact Hneg|].
  exact (proj1 (proj2 (healStamina_no_gain_no_effect (hero 0) (-3))) Hneg).
Defined.

(** C7, as the code has it. [healStamina] computes
    [newStamina = min maxStamina (currentStamina + amount)], which never
    exceeds the maximum; it writes it and posts one message exactly when it
    exceeds the current stamina, and otherwise (so when the healing is 0)
    changes nothing and posts nothing.  Hence for an amount that is not
    negative and a stamina within its maximum, the stamina afterwards is
    [newStamina] and does not exceed the maximum. *)
Theorem healStamina_raises_up_to_max (this : Actor) (amount : Z) :
  let currentStamina := value (stamina (system this)) in
  let maxStamina := max (stamina (system this)) in
  let newStamina := Z.min maxStamina (currentStamina + amount) in
  let actualHealing := newStamina - currentStamina in
  let result := healStamina this amount in
  newStamina ≤ maxStamina
  ∧ (actualHealing > 0 →
       result.1 = update_stamina_value newStamina this
       ∧ value (stamina (system result.1)) = newStamina
       ∧ ∃ card, content <$> result.2 = [HealingContent card]
                 ∧ healing_amount card = actualHealing)
  ∧ (actualHealing = 0 → result = (this, []))
  ∧ (actualHealing < 0 → result = (this, []))
  ∧ (amount >= 0 → currentStamina ≤ maxStamina →
       value (stamina (system result.1)) = newStamina
       ∧ value (stamina (system result.1)) ≤ maxStamina).
Proof.
  intros currentStamina maxStamina newStamina actualHealing result.
  assert (Hskip : actualHealing ≤ 0 → result = (this, [])).
  { intros Hle. subst result. unfold healStamina.
    fold currentStamina maxStamina newStamina actualHealing.
    by rewrite decide_False by lia. }
  assert (Hheal : actualHealing > 0 →
            result = (healStamina this amount)
            ∧ result.1 = update_stamina_value newStamina this
            ∧ ∃ card, content <$> result.2 = [HealingContent card]
                      ∧ healing_amount card = actualHealing).
  { intros Hgt. subst result. unfold healStamina.
    fold currentStamina maxStamina newStamina actualHealing.
    rewrite decide_True by done. cbn [fst snd].
    split; [done|]. split; [done|]. by eexists. }
  split; [subst newStamina; lia|]. split; [|split; [|split]].
  - intros Hgt. destruct (Hheal Hgt) as (_ & Hactor & Hmsg).
    split; [exact Hactor|]. split; [by rewrite Hactor|exact Hmsg].
  - intros Hzero. apply Hskip. lia.
  - intros Hneg. apply Hskip. lia.
  - intros Hamount Hwithin.
    destruct (decide (actualHealing > 0)) as [Hgt|Hle].
    + destruct (Hheal Hgt) as (_ & -> & _). simpl.
      split; [done|]. subst newStamina. lia.
    + rewrite Hskip by lia. cbn [fst].
      fold currentStamina. subst actualHealing newStamina. lia.
Qed.

Lemma healStamina_raises_up_to_max_witness :
  Z.min 10 (5 + 7) - 5 > 0
  ∧ value (stamina (system (healStamina (hero 0) 7).1)) = 10.
Proof.
  assert (Hgt : Z.min 10 (5 + 7) - 5 > 0) by (vm_compute; reflexivity).
  split; [exact Hgt|].
  destruct (healStamina_raises_up_to_max (hero 0) 7) as (_ & Hheal & _).
  destruct (Hheal Hgt) as (_ & Hvalue & _). exact Hvalue.
Defined.

(** C7 fails as stated: healing by -3 at stamina 5 of 10 leaves the stamina at
    5, not at [min 10 (5 + -3) = 2]. *)
Lemma healStamina_negative_amount_not_written :
  value (stamina (system (healStamina (hero 0) (-3)).1))
  ≠ Z.min (max (stamina (system (hero 0))))
          (value (stamina (system (hero 0))) + -3).
Proof. vm_compute. discriminate. Qed.

(** ** The scenarios of the specification, run on the model *)

Example scenario_check_complication :
  chk_outcomeClass (rollCheck_locals (hero 3) (scriptedRoller [4; 2]) "might" 0)
  = "complication".
Proof. reflexivity. Qed.

Example scenario_check_ruin_at_disadvantage :
  chk_sortedDice
    (rollCheck_locals (hero 5) (scriptedRoller [1; 1; 5]) "might" (-1))
  = [5; 1; 1]
  ∧ chk_total
      (rollCheck_locals (hero 5) (scriptedRoller [1; 1; 5]) "might" (-1)) = 7
  ∧ chk_outcomeClass
      (rollCheck_locals (hero 5) (scriptedRoller [1; 1; 5]) "might" (-1))
    = "ruin".
Proof. by vm_compute. Qed.

Example scenario_attack_hit :
  tgt_damage <$> atk_target
    (rollAttack_locals (hero 4) (scriptedRoller [3; 2]) "might"
       (Some (foe 4 0)) false 0) = Some 5
  ∧ tgt_outcome <$> atk_target
      (rollAttack_locals (hero 4) (scriptedRoller [3; 2]) "might"
         (Some (foe 4 0)) false 0) = Some "HIT!".
Proof. by vm_compute. Qed.

Example scenario_applyDamage_lethal :
  value (stamina (system (applyDamage (hero 0) 7).1)) = 0
  ∧ isLethal_of (applyDamage (hero 0) 7).2 = Some true.
Proof. by vm_compute. Qed.

(** * Further properties of the rules *)

(** ** What the dice can add up to *)

Lemma selectDice_Forall (P : Z → Prop) advantage sortedDice :
  Forall P sortedDice → Forall P (selectDice advantage sortedDice).
Proof.
  intros Hall. unfold selectDice, Js.slice.
  repeat case_decide; by apply Forall_take, Forall_drop.
Qed.

Lemma rollCheck_sortedDice_faces this dieRoller approach advantage :
  conforming dieRoller →
  Forall (λ d, 1 ≤ d ≤ 6)
    (chk_sortedDice (rollCheck_locals this dieRoller approach advantage)).
Proof.
  intros Hc. cbn [rollCheck_locals chk_sortedDice].
  rewrite sort_perm. by apply Roll_evaluate_faces.
Qed.

Lemma rollCheck_selected_faces this dieRoller approach advantage :
  conforming dieRoller →
  ∃ d0 d1,
    chk_selectedDice (rollCheck_locals this dieRoller approach advantage)
    = [d0; d1]
    ∧ 1 ≤ d0 ≤ 6 ∧ 1 ≤ d1 ≤ 6.
Proof.
  intros Hc.
  pose proof (rollCheck_sortedDice_length this dieRoller approach advantage)
    as Hlen.
  destruct (selectedDice_pair _ _ Hlen) as (d0 & d1 & Hsel).
  pose proof (selectDice_Forall _ advantage _
                (rollCheck_sortedDice_faces this _ approach advantage Hc))
    as Hall.
  rewrite Hsel in Hall.
  exists d0, d1. split; [exact Hsel|].
  apply Forall_cons in Hall as [H0 Hall].
  apply Forall_cons in Hall as [H1 _]. done.
Qed.



Lemma checkOutcome_class_inv (d0 d1 total : Z) (class : string) :
  (checkOutcome
     (Js.strict_eq ([d0; d1] !! 0%nat) 6 && Js.strict_eq ([d0; d1] !! 1%nat) 6)
     (Js.strict_eq ([d0; d1] !! 0%nat) 1 && Js.strict_eq ([d0; d1] !! 1%nat) 1)
     total).2 = class →
  (class = "glory" ∧ d0 = 6 ∧ d1 = 6)
  ∨ (class = "ruin" ∧ d0 = 1 ∧ d1 = 1)
  ∨ (class = "success" ∧ total >= 10)
  ∨ (class = "complication" ∧ 6 <= total < 10)
  ∨ (class = "failure" ∧ total < 6 ∧ ¬ (d0 = 1 ∧ d1 = 1)).
Proof.
  rewrite checkOutcome_class. intros <-.
  repeat case_decide;
    [left|right; left|do 2 right; left|do 3 right; left|do 4 right];
    (split; [reflexivity|]); first [tauto|lia|split; [lia|tauto]].
Qed.

Lemma rollCheck_class_cases this dieRoller approach advantage :
  let v := rollCheck_locals this dieRoller approach advantage in
  ∃ d0 d1,
    chk_selectedDice v = [d0; d1]
    ∧ chk_total v = d0 + d1 + chk_approachValue v
    ∧ ((chk_outcomeClass v = "glory" ∧ d0 = 6 ∧ d1 = 6)
       ∨ (chk_outcomeClass v = "ruin" ∧ d0 = 1 ∧ d1 = 1)
       ∨ (chk_outcomeClass v = "success" ∧ chk_total v >= 10)
       ∨ (chk_outcomeClass v = "complication" ∧ 6 <= chk_total v < 10)
       ∨ (chk_outcomeClass v = "failure" ∧ chk_total v < 6
          ∧ ¬ (d0 = 1 ∧ d1 = 1))).
Proof.
  intros v.
  pose proof (rollCheck_sortedDice_length this dieRoller approach advantage)
    as Hlen.
  destruct (selectedDice_pair _ _ Hlen) as (d0 & d1 & Hsel).
  change (chk_selectedDice v = [d0; d1]) in Hsel.
  exists d0, d1. split; [exact Hsel|]. split.
  { change (chk_total v)
      with (Js.reduce_sum (chk_selectedDice v) + chk_approachValue v).
    by rewrite Hsel, reduce_sum_pair. }
  apply checkOutcome_class_inv. rewrite <-Hsel. reflexivity.
Qed.

(** X2. With a conforming roller, an approach value of at least 4 rules out
    the failure tier, and an approach value of at least 8 leaves only
    success, glory and ruin. *)
Theorem rollCheck_high_approach (this : Actor) (dieRoller : DieRoller)
    (approach : string) (advantage : Z) :
  conforming dieRoller →
  let v := rollCheck_locals this dieRoller approach advantage in
  (chk_approachValue v >= 4 → chk_outcomeClass v ≠ "failure")
  ∧ (chk_approachValue v >= 8 →
       chk_outcomeClass v = "success" ∨ chk_outcomeClass v = "glory"
       ∨ chk_outcomeClass v = "ruin").
Proof.
  intros Hc v.
  destruct (rollCheck_selected_faces this dieRoller approach advantage Hc)
    as (d0 & d1 & Hsel & H0 & H1).
  destruct (rollCheck_class_cases this dieRoller approach advantage)
    as (e0 & e1 & Hsel' & Htotal & Hcases).
  fold v in Hsel, Hsel', Htotal, Hcases.
  rewrite Hsel in Hsel'. injection Hsel' as <- <-.
  split; intros Hav.
  - destruct Hcases as [(->&_)|[(->&_)|[(->&_)|[(->&_)|(_&Hlow&_)]]]];
      try discriminate. lia.
  - destruct Hcases as [(->&_)|[(->&_)|[(->&_)|[(_&Hmid)|(_&Hlow&_)]]]];
      auto; lia.
Qed.

Lemma rollCheck_high_approach_witness :
  conforming (scriptedRoller [1; 2])
  ∧ chk_approachValue
      (rollCheck_locals (hero 4) (scriptedRoller [1; 2]) "might" 0) >= 4
  ∧ chk_outcomeClass
      (rollCheck_locals (hero 4) (scriptedRoller [1; 2]) "might" 0)
    ≠ "failure".
Proof.
  assert (Hc : conforming (scriptedRoller [1; 2])).
  { apply scriptedRoller_conforming. repeat constructor; lia. }
  assert (Hav : chk_approachValue
                  (rollCheck_locals (hero 4) (scriptedRoller [1; 2]) "might" 0)
                >= 4) by (vm_compute; discriminate).
  split; [exact Hc|]. split; [exact Hav|].
  exact (proj1 (rollCheck_high_approach (hero 4) _ "might" 0 Hc) Hav).
Defined.

(** ** The selected pair against the other pairs of the pool *)

Lemma pair_sum_perm (a b c d : Z) : [a; b] ≡ₚ [c; d] → a + b = c + d.
Proof.
  intros Hp. apply Permutation_length_2_inv in Hp as [Hp|Hp];
    injection Hp as -> ->; lia.
Qed.

Lemma submseteq_length_one (x : Z) (l k : list Z) (a b : Z) :
  [a; b] ≡ₚ x :: l → l ⊆+ k → ∃ y, l = [y] ∧ y ∈ k.
Proof.
  intros Hp Hsub. pose proof (Permutation_length Hp) as Hlen.
  destruct l as [|y [|? ?]]; try discriminate Hlen.
  exists y. split; [done|]. by apply singleton_submseteq_l.
Qed.

(** Two dice of a pool are the two set apart, or one of these and one of the
    rest, or two of the rest. *)
Lemma pair_of_pool (a b s0 s1 : Z) (rest : list Z) :
  [a; b] ⊆+ s0 :: s1 :: rest →
  ∃ c d, a + b = c + d
    ∧ ((c = s0 ∧ d = s1) ∨ (c = s0 ∧ d ∈ rest) ∨ (c = s1 ∧ d ∈ rest)
       ∨ (c ∈ rest ∧ d ∈ rest)).
Proof.
  intros Hsub.
  apply submseteq_cons_r in Hsub as [Hsub|(l & Hp & Hl)].
  - apply submseteq_cons_r in Hsub as [Hsub|(l & Hp & Hl)].
    + exists a, b. split; [done|]. do 3 right.
      split; eapply elem_of_submseteq; try exact Hsub;
        rewrite !elem_of_cons; auto.
    + destruct (submseteq_length_one _ _ _ _ _ Hp Hl) as (y & -> & Hy).
      exists s1, y. split; [by apply pair_sum_perm|]. auto.
  - destruct (submseteq_length_one _ _ _ _ _ Hp Hl) as (y & -> & Hy).
    exists s0, y. split; [by apply pair_sum_perm|].
    apply elem_of_cons in Hy as [->|Hy]; auto.
Qed.

Lemma rollCheck_selected_and_rest this dieRoller approach advantage :
  let v := rollCheck_locals this dieRoller approach advantage in
  ∃ d0 d1 rest,
    chk_selectedDice v = [d0; d1]
    ∧ chk_diceTotal v = d0 + d1
    ∧ roll_results (chk_roll v) ≡ₚ d0 :: d1 :: rest
    ∧ (advantage > 0 → ∀ x, x ∈ rest → x ≤ d0 ∧ x ≤ d1)
    ∧ (advantage < 0 → ∀ x, x ∈ rest → d0 ≤ x ∧ d1 ≤ x)
    ∧ (advantage = 0 → rest = []).
Proof.
  intros v.
  pose proof (rollCheck_sortedDice_length this dieRoller approach advantage)
    as Hlen.
  destruct (selectedDice_pair _ _ Hlen) as (d0 & d1 & Hsel).
  assert (Hperm : roll_results (chk_roll v) ≡ₚ chk_sortedDice v).
  { symmetry. apply sort_perm. }
  assert (Hdesc : descending (chk_sortedDice v)) by apply sort_descending.
  assert (Hsum : chk_diceTotal v = d0 + d1).
  { change (chk_diceTotal v)
      with (Js.reduce_sum
              (selectDice advantage
                 (chk_sortedDice
                    (rollCheck_locals this dieRoller approach advantage)))).
    by rewrite Hsel, reduce_sum_pair. }
  exists d0, d1.
  destruct (Z.lt_trichotomy advantage 0) as [Hneg|[Hzero|Hpos]].
  - destruct (selectDice_lowest _ _ Hlen Hdesc Hneg) as (rest & Hp & Hlow).
    rewrite Hsel in Hp, Hlow. exists rest.
    split; [exact Hsel|]. split; [exact Hsum|].
    split; [etrans; [exact Hperm|exact Hp]|].
    split; [lia|]. split; [|lia].
    intros _ x Hx. split; apply Hlow; rewrite ?elem_of_cons; auto.
  - exists []. split; [exact Hsel|]. split; [exact Hsum|].
    rewrite (selectDice_all _ _ Hlen Hzero) in Hsel.
    split; [etrans; [exact Hperm|]; unfold v; by rewrite Hsel|].
    split; [lia|]. split; [lia|done].
  - assert (Hgt : advantage > 0) by lia.
    destruct (selectDice_highest _ _ Hlen Hdesc Hgt) as (rest & Hp & Hhigh).
    rewrite Hsel in Hp, Hhigh. exists rest.
    split; [exact Hsel|]. split; [exact Hsum|].
    split; [etrans; [exact Hperm|exact Hp]|].
    split; [|split; [lia|lia]].
    intros _ x Hx. split; apply Hhigh; rewrite ?elem_of_cons; auto.
Qed.

(** X3. Whatever two dice [a], [b] one takes from the rolled pool, their sum
    is at most the dice total kept at advantage, at least the dice total
    kept at disadvantage, and equal to it without either. *)
Theorem selected_pair_is_extreme (this : Actor) (dieRoller : DieRoller)
    (approach : string) (advantage a b : Z) :
  let v := rollCheck_locals this dieRoller approach advantage in
  [a; b] ⊆+ roll_results (chk_roll v) →
  (advantage > 0 → a + b ≤ chk_diceTotal v)
  ∧ (advantage < 0 → chk_diceTotal v ≤ a + b)
  ∧ (advantage = 0 → a + b = chk_diceTotal v).
Proof.
  intros v Hsub.
  destruct (rollCheck_selected_and_rest this dieRoller approach advantage)
    as (d0 & d1 & rest & _ & Hsum & Hperm & Hhigh & Hlow & Hnone).
  fold v in Hsum, Hperm. rewrite Hperm in Hsub. rewrite Hsum.
  destruct (pair_of_pool _ _ _ _ _ Hsub) as (c & d & -> & Hcases).
  split; [|split].
  - intros Hadv. specialize (Hhigh Hadv).
    destruct Hcases as [[-> ->]|[[-> Hd]|[[-> Hd]|[Hc Hd]]]];
      try pose proof (Hhigh _ Hd); try pose proof (Hhigh _ Hc); lia.
  - intros Hadv. specialize (Hlow Hadv).
    destruct Hcases as [[-> ->]|[[-> Hd]|[[-> Hd]|[Hc Hd]]]];
      try pose proof (Hlow _ Hd); try pose proof (Hlow _ Hc); lia.
  - intros Hadv. rewrite (Hnone Hadv) in Hcases.
    destruct Hcases as [[-> ->]|[[_ Hd]|[[_ Hd]|[_ Hd]]]];
      [done|by apply elem_of_nil in Hd..].
Qed.

Lemma selected_pair_is_extreme_witness :
  [6; 3] ⊆+ roll_results
              (chk_roll (rollCheck_locals (hero 2) (scriptedRoller [6; 6; 3])
                           "might" 1))
  ∧ 6 + 3 ≤ chk_diceTotal
              (rollCheck_locals (hero 2) (scriptedRoller [6; 6; 3]) "might" 1).
Proof.
  assert (Hsub : [6; 3] ⊆+ roll_results
            (chk_roll (rollCheck_locals (hero 2) (scriptedRoller [6; 6; 3])
                         "might" 1))).
  { apply (submseteq_skip 6 [3] [6; 3]), submseteq_cons. reflexivity. }
  split; [exact Hsub|].
  apply (selected_pair_is_extreme (hero 2) (scriptedRoller [6; 6; 3])
           "might" 1 6 3 Hsub).
  lia.
Defined.

(** X4. With a conforming roller, a disadvantaged check is a glory only when
    every die of the pool shows 6, and an advantaged check is a ruin only
    when every die of the pool shows 1. *)
Theorem double_against_the_odds (this : Actor) (dieRoller : DieRoller)
    (approach : string) (advantage : Z) :
  conforming dieRoller →
  let v := rollCheck_locals this dieRoller approach advantage in
  (advantage < 0 → chk_outcomeClass v = "glory" →
     Forall (λ d, d = 6) (roll_results (chk_roll v)))
  ∧ (advantage > 0 → chk_outcomeClass v = "ruin" →
     Forall (λ d, d = 1) (roll_results (chk_roll v))).
Proof.
  intros Hc v.
  assert (Hfaces : Forall (λ d, 1 ≤ d ≤ 6) (roll_results (chk_roll v)))
    by (by apply Roll_evaluate_faces).
  destruct (rollCheck_selected_and_rest this dieRoller approach advantage)
    as (d0 & d1 & rest & Hsel & _ & Hperm & Hhigh & Hlow & _).
  destruct (rollCheck_class_cases this dieRoller approach advantage)
    as (e0 & e1 & Hsel' & _ & Hcases).
  fold v in Hsel, Hsel', Hperm, Hcases.
  rewrite Hsel in Hsel'. injection Hsel' as <- <-.
  rewrite Hperm in Hfaces |- *. rewrite Forall_forall in Hfaces.
  split; intros Hadv Hclass; rewrite Hclass in Hcases.
  - destruct Hcases as [(_&->&->)|[(?&_)|[(?&_)|[(?&_)|(?&_)]]]];
      try discriminate.
    apply Forall_forall. intros x Hx.
    pose proof (Hfaces x Hx) as Hrange.
    rewrite !elem_of_cons in Hx. destruct Hx as [->|[->|Hx]]; [done..|].
    pose proof (Hlow Hadv x Hx). lia.
  - destruct Hcases as [(?&_)|[(_&->&->)|[(?&_)|[(?&_)|(?&_)]]]];
      try discriminate.
    apply Forall_forall. intros x Hx.
    pose proof (Hfaces x Hx) as Hrange.
    rewrite !elem_of_cons in Hx. destruct Hx as [->|[->|Hx]]; [done..|].
    pose proof (Hhigh Hadv x Hx). lia.
Qed.

Lemma double_against_the_odds_witness :
  conforming (scriptedRoller [6; 6; 6])
  ∧ Forall (λ d, d = 6)
      (roll_results
         (chk_roll (rollCheck_locals (hero 2) (scriptedRoller [6; 6; 6])
                      "might" (-1)))).
Proof.
  assert (Hc : conforming (scriptedRoller [6; 6; 6])).
  { apply scriptedRoller_conforming. repeat constructor; lia. }
  split; [exact Hc|].
  apply (proj1 (double_against_the_odds (hero 2) _ "might" (-1) Hc));
    [lia|reflexivity].
Defined.

(** ** What the messages show *)

(** X5. The card of a check always carries one of the five outcome classes
    and a description that is not empty: the empty default of
    [_getOutcomeDescription] is never reached from [rollCheck]. *)
Theorem rollCheck_card_described (this : Actor) (dieRoller : DieRoller)
    (approach : string) (advantage : Z) :
  ∃ card,
    content (rollCheck this dieRoller approach advantage) = CheckContent card
    ∧ card_outcomeClass card
        ∈ ["glory"; "ruin"; "success"; "complication"; "failure"]
    ∧ card_description card ≠ "".
Proof.
  eexists. split; [reflexivity|]. cbn [card_outcomeClass card_description].
  destruct (rollCheck_class_cases this dieRoller approach advantage)
    as (d0 & d1 & _ & _ & Hcases).
  destruct Hcases as [(->&_)|[(->&_)|[(->&_)|[(->&_)|(->&_)]]]];
    (split; [rewrite !elem_of_cons; auto 10|]);
    unfold _getOutcomeDescription; repeat case_decide; done.
Qed.




(** ** Stamina under repeated damage and healing *)

Lemma update_stamina_value_twice (v w : Z) (this : Actor) :
  update_stamina_value w (update_stamina_value v this)
  = update_stamina_value w this.
Proof. reflexivity. Qed.

Lemma applyDamage_actor (this : Actor) (damage : Z) :
  (applyDamage this damage).1
  = update_stamina_value
      (Z.max 0 (value (stamina (system this)) - damage)) this.
Proof. reflexivity. Qed.

Lemma healStamina_actor (this : Actor) (amount : Z) :
  (healStamina this amount).1
  = update_stamina_value
      (Z.max (value (stamina (system this)))
             (Z.min (max (stamina (system this)))
                    (value (stamina (system this)) + amount))) this.
Proof.
  unfold healStamina. case_decide; cbn [fst].
  - f_equal. lia.
  - rewrite <-(update_stamina_value_same this) at 1. f_equal. lia.
Qed.

(** X7. The message of [applyDamage] is marked lethal exactly when the
    damage is at least the current stamina. *)
Theorem applyDamage_lethal_iff (this : Actor) (damage : Z) :
  ∃ isLethal,
    isLethal_of (applyDamage this damage).2 = Some isLethal
    ∧ (isLethal = true ↔ value (stamina (system this)) ≤ damage).
Proof.
  exists (bool_decide (Z.max 0 (value (stamina (system this)) - damage) = 0)).
  split; [reflexivity|].
  rewrite bool_decide_eq_true. lia.
Qed.

Lemma prepareDerivedData_update_stamina_value (v : Z) (this : Actor) :
  prepareDerivedData (update_stamina_value v this)
  = update_stamina_value v (prepareDerivedData this).
Proof.
  unfold prepareDerivedData. cbn [update_stamina_value items actor_type].
  destruct (items this) as [its|]; [|done].
  destruct (fold_left addEquippedArmor its (0, 0)) as [a m].
  by case_decide.
Qed.

Lemma prepareDerivedData_twice (this : Actor) :
  prepareDerivedData (prepareDerivedData this) = prepareDerivedData this.
Proof.
  destruct this as [name type sys [its|]]; unfold prepareDerivedData;
    cbn [items actor_type]; [|done].
  destruct (fold_left addEquippedArmor its (0, 0)) as [a m] eqn:Hfold.
  case_decide as Htype; cbn [set_resistances items actor_type];
    rewrite Hfold; [rewrite decide_True by done|rewrite decide_False by done];
    done.
Qed.

Lemma prepareDerivedData_stamina (this : Actor) :
  stamina (system (prepareDerivedData this)) = stamina (system this).
Proof.
  unfold prepareDerivedData. destruct (items this) as [its|]; [|done].
  destruct (fold_left addEquippedArmor its (0, 0)) as [a m].
  by case_decide.
Qed.

(** The host's preparation of an actor whose stamina was just written
    within [0, max]: the clamp changes nothing. *)
Lemma hostPrepare_update_in_range (v : Z) (this : Actor) :
  0 ≤ v ≤ max (stamina (system this)) →
  hostPrepare (update_stamina_value v this)
  = update_stamina_value v (prepareDerivedData this).
Proof.
  intros Hrange. rewrite <-prepareDerivedData_update_stamina_value.
  unfold hostPrepare. f_equal.
  unfold update_stamina_value, ActorDataModel_clampStamina, Js.Math_clamp.
  cbn [actor_name actor_type system approaches stamina armor magicResist
       items value max].
  do 3 f_equal. lia.
Qed.

(** X8. Damage accumulates: on an actor whose stamina lies within
    [0, max], applying a damage [d1] and then, on the actor the host has
    prepared again, a damage [d2], both not negative, leaves after
    preparation the actor that applying [d1 + d2] at once leaves. *)
Theorem applyDamage_accumulates (this : Actor) (d1 d2 : Z) :
  0 ≤ value (stamina (system this)) ≤ max (stamina (system this)) →
  0 ≤ d1 → 0 ≤ d2 →
  hostPrepare (applyDamage (hostPrepare (applyDamage this d1).1) d2).1
  = hostPrepare (applyDamage this (d1 + d2)).1.
Proof.
  intros Hrange Hd1 Hd2.
  rewrite (applyDamage_actor this d1), (applyDamage_actor this (d1 + d2)).
  rewrite !hostPrepare_update_in_range by lia.
  rewrite applyDamage_actor, update_stamina_value_twice.
  rewrite hostPrepare_update_in_range.
  - rewrite prepareDerivedData_twice. f_equal.
    cbn [update_stamina_value system stamina value]. lia.
  - rewrite prepareDerivedData_stamina.
    cbn [update_stamina_value system stamina value max]. lia.
Qed.

Lemma applyDamage_accumulates_witness :
  0 ≤ value (stamina (system (hero 0))) ≤ max (stamina (system (hero 0)))
  ∧ 0 ≤ 4 ∧ 0 ≤ 2
  ∧ hostPrepare (applyDamage (hostPrepare (applyDamage (hero 0) 4).1) 2).1
    = hostPrepare (applyDamage (hero 0) 6).1.
Proof.
  assert (Hrange : 0 ≤ value (stamina (system (hero 0)))
                   ≤ max (stamina (system (hero 0)))) by (simpl; lia).
  assert (Hd1 : 0 ≤ 4) by lia. assert (Hd2 : 0 ≤ 2) by lia.
  split; [exact Hrange|]. split; [exact Hd1|]. split; [exact Hd2|].
  exact (applyDamage_accumulates (hero 0) 4 2 Hrange Hd1 Hd2).
Defined.

(** Without the bound on [d1] the two differ: from stamina 5 of 10, a
    damage of -8 writes 13, which the host's clamp brings to 10 before a
    damage of 2 leaves 8, while a damage of -6 at once leaves 10. *)
Example applyDamage_negative_then_positive :
  value (stamina (system
    (hostPrepare (applyDamage (hostPrepare (applyDamage (hero 0) (-8)).1) 2).1)))
  = 8
  ∧ value (stamina (system (hostPrepare (applyDamage (hero 0) (-6)).1))) = 10.
Proof. by vm_compute. Qed.

(** X9. Healing undoes damage: for a damage between 0 and the current
    stamina, on an actor whose stamina is within its maximum, healing by the
    same amount after the damage gives back the actor as it was. *)
Theorem healStamina_undoes_applyDamage (this : Actor) (damage : Z) :
  0 ≤ damage →
  damage ≤ value (stamina (system this)) →
  value (stamina (system this)) ≤ max (stamina (system this)) →
  (healStamina (applyDamage this damage).1 damage).1 = this.
Proof.
  intros Hpos Hle Hmax.
  rewrite healStamina_actor, applyDamage_actor, update_stamina_value_twice.
  cbn [update_stamina_value system stamina value max].
  etrans; [|apply update_stamina_value_same]. f_equal. lia.
Qed.

Lemma healStamina_undoes_applyDamage_witness :
  0 ≤ 3 ∧ (healStamina (applyDamage (hero 0) 3).1 3).1 = hero 0.
Proof.
  assert (Hpos : 0 ≤ 3) by lia.
  split; [exact Hpos|].
  apply (healStamina_undoes_applyDamage (hero 0) 3 Hpos); simpl; lia.
Defined.

(** X10. Healing accumulates: on an actor whose stamina is within its
    maximum, healing by two amounts that are not negative leaves the actor as
    healing by their sum does. *)
Theorem healStamina_accumulates (this : Actor) (a1 a2 : Z) :
  0 ≤ a1 → 0 ≤ a2 →
  value (stamina (system this)) ≤ max (stamina (system this)) →
  (healStamina (healStamina this a1).1 a2).1 = (healStamina this (a1 + a2)).1.
Proof.
  intros H1 H2 Hmax.
  rewrite !healStamina_actor, update_stamina_value_twice. f_equal.
  cbn [update_stamina_value system stamina value max]. lia.
Qed.

Lemma healStamina_accumulates_witness :
  0 ≤ 2 ∧ 0 ≤ 9
  ∧ (healStamina (healStamina (hero 0) 2).1 9).1 = (healStamina (hero 0) 11).1.
Proof.
  assert (H1 : 0 ≤ 2) by lia. assert (H2 : 0 ≤ 9) by lia.
  split; [exact H1|]. split; [exact H2|].
  apply (healStamina_accumulates (hero 0) 2 9 H1 H2). simpl. lia.
Defined.

(** X11. The data model's clamp keeps the maximum, leaves a value that does
    not exceed it and is not negative when the maximum is not, leaves a
    stamina already within [0, max] as it is, and does nothing when run
    again. *)
Theorem clampStamina_range (s : Stamina) :
  let s' := ActorDataModel_clampStamina s in
  max s' = max s
  ∧ value s' ≤ max s
  ∧ (0 ≤ max s → 0 ≤ value s')
  ∧ (0 ≤ value s ≤ max s → s' = s)
  ∧ ActorDataModel_clampStamina s' = s'.
Proof.
  intros s'. subst s'. destruct s as [v m].
  unfold ActorDataModel_clampStamina, Js.Math_clamp. cbn [value max].
  split; [done|]. split; [lia|]. split; [lia|]. split.
  - intros Hrange. f_equal. lia.
  - f_equal. lia.
Qed.

Lemma clampStamina_range_witness :
  0 ≤ max {| value := 14; max := 10 |}
  ∧ 0 ≤ value (ActorDataModel_clampStamina {| value := 14; max := 10 |}) ≤ 10.
Proof.
  assert (Hmax : 0 ≤ max {| value := 14; max := 10 |}) by (simpl; lia).
  split; [exact Hmax|].
  destruct (clampStamina_range {| value := 14; max := 10 |})
    as (_ & Hle & Hpos & _).
  split; [exact (Hpos Hmax)|exact Hle].
Defined.

Lemma staminaPrepared_range (this : Actor) :
  staminaPrepared this ↔
    value (stamina (system this)) ≤ max (stamina (system this))
    ∧ (0 ≤ value (stamina (system this))
       ∨ value (stamina (system this)) = max (stamina (system this))).
Proof.
  unfold staminaPrepared, ActorDataModel_clampStamina, Js.Math_clamp.
  destruct (stamina (system this)) as [v m]. cbn [value max]. split.
  - intros Heq. injection Heq as Heq. lia.
  - intros Hrange. f_equal. lia.
Qed.

(** X12. The stamina the rules write survives the data model's clamp: on an
    actor with prepared stamina, [healStamina] leaves the stamina prepared
    for every amount, and [applyDamage] does for every damage that is not
    negative when the maximum is not negative. *)
Theorem stamina_stays_prepared (this : Actor) (amount : Z) :
  staminaPrepared this →
  staminaPrepared (healStamina this amount).1
  ∧ (0 ≤ amount → 0 ≤ max (stamina (system this)) →
       staminaPrepared (applyDamage this amount).1).
Proof.
  intros Hprep. apply staminaPrepared_range in Hprep.
  split; [|intros Hpos Hmax]; apply staminaPrepared_range.
  - rewrite healStamina_actor.
    cbn [update_stamina_value system stamina value max]. lia.
  - rewrite applyDamage_actor.
    cbn [update_stamina_value system stamina value max]. lia.
Qed.

Lemma stamina_stays_prepared_witness :
  staminaPrepared (hero 0) ∧ staminaPrepared (applyDamage (hero 0) 7).1.
Proof.
  assert (Hprep : staminaPrepared (hero 0)) by reflexivity.
  split; [exact Hprep|].
  apply (proj2 (stamina_stays_prepared (hero 0) 7 Hprep)); simpl; lia.
Defined.

(** ** Armour aggregation over the items *)

Lemma prepareDerivedData_totals (this : Actor) (its : list Item) :
  items this = Some its →
  prepareDerivedData this
  = if decide (actor_type this = "character")
    then set_resistances (Z.min (equippedArmorSum armorValue its) 3)
           (Z.min (equippedArmorSum magicResistValue its) 3) this
    else set_resistances (equippedArmorSum armorValue its)
           (equippedArmorSum magicResistValue its) this.
Proof.
  intros Hits. unfold prepareDerivedData.
  by rewrite Hits, forEach_totals, !Z.add_0_l.
Qed.

Lemma equippedArmorSum_app (field : Item → option Z) (l k : list Item) :
  equippedArmorSum field (l ++ k)
  = equippedArmorSum field l + equippedArmorSum field k.
Proof.
  induction l as [|item l IH]; [done|].
  rewrite <-app_comm_cons, !equippedArmorSum_cons, IH.
  destruct (isEquippedArmor item); lia.
Qed.

Lemma equippedArmorSum_perm (field : Item → option Z) (l k : list Item) :
  l ≡ₚ k → equippedArmorSum field l = equippedArmorSum field k.
Proof.
  induction 1 as [|x l k _ IH|x y l|l k m _ IH1 _ IH2].
  - done.
  - by rewrite !equippedArmorSum_cons, IH.
  - rewrite !equippedArmorSum_cons.
    destruct (isEquippedArmor x), (isEquippedArmor y); lia.
  - congruence.
Qed.

Lemma equippedArmorSum_nonneg (field : Item → option Z) (its : list Item) :
  Forall (λ item, 0 ≤ default 0 (field item)) its →
  0 ≤ equippedArmorSum field its.
Proof.
  induction 1 as [|item its Hitem _ IH]; [done|].
  rewrite equippedArmorSum_cons. destruct (isEquippedArmor item); lia.
Qed.

(** X13. [prepareDerivedData] is idempotent: running it on its own result
    changes nothing, whether or not the actor has items. *)
Theorem prepareDerivedData_idempotent (this : Actor) :
  prepareDerivedData (prepareDerivedData this) = prepareDerivedData this.
Proof.
  destruct (items this) as [its|] eqn:Hits.
  - assert (Hits' : items (prepareDerivedData this) = Some its).
    { rewrite (prepareDerivedData_totals _ _ Hits). by case_decide. }
    assert (Htype : actor_type (prepareDerivedData this) = actor_type this).
    { rewrite (prepareDerivedData_totals _ _ Hits). by case_decide. }
    rewrite (prepareDerivedData_totals _ _ Hits'), Htype.
    rewrite (prepareDerivedData_totals _ _ Hits).
    by case_decide.
  - unfold prepareDerivedData. rewrite Hits. cbn. by rewrite Hits.
Qed.

(** X14. The derived armour and magic resistance do not depend on the order
    of the actor's items. *)
Theorem prepareDerivedData_order (this : Actor) (its its' : list Item) :
  its ≡ₚ its' →
  system (prepareDerivedData (with_items its' this))
  = system (prepareDerivedData (with_items its this)).
Proof.
  intros Hperm.
  rewrite (prepareDerivedData_totals (with_items its' this) its' eq_refl).
  rewrite (prepareDerivedData_totals (with_items its this) its eq_refl).
  rewrite !(equippedArmorSum_perm _ _ _ Hperm).
  cbn [with_items actor_type]. by case_decide.
Qed.

Lemma prepareDerivedData_order_witness :
  heavyKit ≡ₚ reverse heavyKit
  ∧ system (prepareDerivedData (with_items (reverse heavyKit) (hero 0)))
    = system (prepareDerivedData (with_items heavyKit (hero 0))).
Proof.
  assert (Hperm : heavyKit ≡ₚ reverse heavyKit)
    by (symmetry; apply reverse_Permutation).
  split; [exact Hperm|].
  exact (prepareDerivedData_order (hero 0) heavyKit (reverse heavyKit) Hperm).
Defined.

(** X15. When no item carries a negative armour or magic resistance value,
    the derived values are not negative, so a character's lie in 0..3. *)
Theorem prepareDerivedData_range (this : Actor) (its : list Item) :
  items this = Some its →
  Forall (λ item, 0 ≤ default 0 (armorValue item)
                  ∧ 0 ≤ default 0 (magicResistValue item)) its →
  let derived := system (prepareDerivedData this) in
  0 ≤ armor derived ∧ 0 ≤ magicResist derived
  ∧ (actor_type this = "character" →
       armor derived ≤ 3 ∧ magicResist derived ≤ 3).
Proof.
  intros Hits Hvalues derived. subst derived.
  assert (Harmor : 0 ≤ equippedArmorSum armorValue its).
  { apply equippedArmorSum_nonneg.
    eapply Forall_impl; [exact Hvalues|]. by intros ? [? ?]. }
  assert (Hmagic : 0 ≤ equippedArmorSum magicResistValue its).
  { apply equippedArmorSum_nonneg.
    eapply Forall_impl; [exact Hvalues|]. by intros ? [? ?]. }
  rewrite (prepareDerivedData_totals _ _ Hits).
  case_decide; cbn [set_resistances system armor magicResist];
    (split; [lia|]); (split; [lia|]); intros ?; [lia|done].
Qed.

Lemma prepareDerivedData_range_witness :
  items (armoured "character") = Some heavyKit
  ∧ 0 ≤ armor (system (prepareDerivedData (armoured "character"))).
Proof.
  assert (Hits : items (armoured "character") = Some heavyKit) by reflexivity.
  split; [exact Hits|].
  refine (proj1 (prepareDerivedData_range (armoured "character") heavyKit
                   Hits _)).
  repeat (apply Forall_cons_2; [simpl; lia|]). apply Forall_nil_2.
Defined.

(** ** Equipping items *)

(** X16. Toggling an item twice gives the item back; an item without the
    [equipped] field is left alone; and a toggle never touches the type or
    the armour values. *)
Theorem toggleEquipped_involutive (this : Item) :
  toggleEquipped (toggleEquipped this) = this
  ∧ (equipped this = None → toggleEquipped this = this)
  ∧ item_type (toggleEquipped this) = item_type this
  ∧ armorValue (toggleEquipped this) = armorValue this
  ∧ magicResistValue (toggleEquipped this) = magicResistValue this.
Proof.
  destruct this as [ty [b|] av mv]; unfold toggleEquipped; cbn;
    rewrite ?negb_involutive; done.
Qed.

Lemma toggleEquipped_involutive_witness :
  equipped scroll = None ∧ toggleEquipped scroll = scroll.
Proof.
  assert (Hnone : equipped scroll = None) by reflexivity.
  split; [exact Hnone|].
  exact (proj1 (proj2 (toggleEquipped_involutive scroll)) Hnone).
Defined.

Lemma equippedArmorSum_insert (field : Item → option Z) (its : list Item)
    (i : nat) (item item' : Item) :
  its !! i = Some item →
  equippedArmorSum field (<[i := item']> its)
  = equippedArmorSum field its
    - equippedArmorSum field [item] + equippedArmorSum field [item'].
Proof.
  intros Hi.
  pose proof (lookup_lt_Some _ _ _ Hi) as Hlt.
  rewrite <-(take_drop_middle its i item Hi) at 2.
  rewrite insert_take_drop by done.
  rewrite !equippedArmorSum_app, !equippedArmorSum_cons.
  change (equippedArmorSum field []) with 0.
  destruct (isEquippedArmor item), (isEquippedArmor item'); lia.
Qed.

(** X17. For an actor that is not a character, toggling one of its items
    moves the derived armour by that item's armour value: up when an
    unequipped armour piece is put on, down when an equipped one is taken
    off, and not at all when the item is not of type armor. *)
Theorem toggleEquipped_armor_effect (this : Actor) (its : list Item)
    (i : nat) (item : Item) :
  its !! i = Some item →
  actor_type this ≠ "character" →
  let before := armor (system (prepareDerivedData (with_items its this))) in
  let after := armor (system (prepareDerivedData
                 (with_items (<[i := toggleEquipped item]> its) this))) in
  (item_type item = "armor" → equipped item = Some false →
     after = before + default 0 (armorValue item))
  ∧ (item_type item = "armor" → equipped item = Some true →
     after = before - default 0 (armorValue item))
  ∧ (item_type item ≠ "armor" → after = before).
Proof.
  intros Hi Htype before after. subst before after.
  rewrite (prepareDerivedData_totals (with_items _ this) _ eq_refl).
  rewrite (prepareDerivedData_totals (with_items its this) its eq_refl).
  cbn [with_items actor_type]. rewrite !decide_False by done.
  cbn [set_resistances system armor].
  rewrite (equippedArmorSum_insert _ _ _ _ _ Hi).
  unfold equippedArmorSum, isEquippedArmor, toggleEquipped.
  destruct item as [ty [[]|] av mv]; cbn [item_type equipped armorValue];
    rewrite !filter_cons, !filter_nil; cbn;
    (split; [intros -> ?|split; [intros -> ?|intros ?]]);
    simplify_eq; repeat case_decide; simplify_eq/=; try lia;
    try (exfalso; by auto).
Qed.

Lemma toggleEquipped_armor_effect_witness :
  heavyKit !! 1%nat = Some (armorPiece false 3 3)
  ∧ armor (system (prepareDerivedData
      (with_items (<[1%nat := toggleEquipped (armorPiece false 3 3)]> heavyKit)
         (foe 0 0))))
    = armor (system (prepareDerivedData (with_items heavyKit (foe 0 0)))) + 3.
Proof.
  assert (Hi : heavyKit !! 1%nat = Some (armorPiece false 3 3)) by reflexivity.
  assert (Htype : actor_type (foe 0 0) ≠ "character") by discriminate.
  split; [exact Hi|].
  exact (proj1 (toggleEquipped_armor_effect (foe 0 0) heavyKit 1
                  (armorPiece false 3 3) Hi Htype) eq_refl eq_refl).
Defined.

(** ** The actor sheet *)

(** X18. On the actor [prepareDerivedData] leaves, the sheet's [getData]
    never raises the over-limit flags for a character that has items, since
    its armour and magic resistance are capped at 3; for an npc it raises
    each exactly when the equipped sum exceeds 3; for a creature or any
    other type it sets no over-limit flag at all. *)
Theorem sheet_over_limit_flags (this : Actor) (its : list Item) :
  items this = Some its →
  let ctx := getData_limits (prepareDerivedData this) in
  (actor_type this = "character" →
     ∃ c, ctx = Some c
       ∧ ctx_armorOverLimit c = false ∧ ctx_magicResistOverLimit c = false)
  ∧ (actor_type this = "npc" →
     ∃ c, ctx = Some c
       ∧ ctx_armorOverLimit c
         = bool_decide (equippedArmorSum armorValue its > 3)
       ∧ ctx_magicResistOverLimit c
         = bool_decide (equippedArmorSum magicResistValue its > 3))
  ∧ (actor_type this ≠ "character" → actor_type this ≠ "npc" → ctx = None).
Proof.
  intros Hits ctx. subst ctx.
  rewrite (prepareDerivedData_totals _ _ Hits).
  destruct (decide (actor_type this = "character")) as [Htype|Hnot].
  - unfold getData_limits. cbn [set_resistances actor_type].
    rewrite decide_True by done.
    split; [|split]; [intros _|intros Hnpc|intros Hnot]; [|congruence|done].
    eexists. split; [reflexivity|].
    cbn [_prepareCharacterData set_resistances system armor magicResist
         ctx_armorOverLimit ctx_magicResistOverLimit].
    split; apply bool_decide_eq_false; lia.
  - unfold getData_limits. cbn [set_resistances actor_type].
    rewrite decide_False by done.
    split; [done|]. split.
    + intros Hnpc. rewrite decide_True by done.
      eexists. split; [reflexivity|]. done.
    + intros _ Hnpc. by rewrite decide_False.
Qed.

Lemma sheet_over_limit_flags_witness :
  items (armoured "character") = Some heavyKit
  ∧ (ctx_armorOverLimit <$>
       getData_limits (prepareDerivedData (armoured "character")))
    = Some false
  ∧ (ctx_armorOverLimit <$>
       getData_limits (prepareDerivedData (armoured "npc")))
    = Some true
  ∧ getData_limits (prepareDerivedData (armoured "creature")) = None.
Proof.
  assert (Hits : items (armoured "character") = Some heavyKit) by reflexivity.
  split; [exact Hits|]. split; [|split].
  - destruct (proj1 (sheet_over_limit_flags (armoured "character") heavyKit
                       Hits) eq_refl) as (c & Hc & Harmor & _).
    rewrite Hc. cbn. by rewrite Harmor.
  - destruct (proj1 (proj2 (sheet_over_limit_flags (armoured "npc") heavyKit
                              eq_refl)) eq_refl) as (c & Hc & Harmor & _).
    rewrite Hc. cbn. by rewrite Harmor.
  - apply (proj2 (proj2 (sheet_over_limit_flags (armoured "creature") heavyKit
                           eq_refl))); discriminate.
Defined.

Lemma allocateItem_fold DEFAULT_TOKEN (l seen : list ContextItem)
    (b : ItemBuckets) :
  fold_left (allocateItem DEFAULT_TOKEN) l (seen, b)
  = (seen ++ (withDefaultImg DEFAULT_TOKEN <$> l),
     fold_left pushByType (withDefaultImg DEFAULT_TOKEN <$> l) b).
Proof.
  revert seen b. induction l as [|i l IH]; intros seen b.
  - simpl. by rewrite app_nil_r.
  - cbn [fold_left fmap list_fmap]. unfold allocateItem at 2. cbn [fst snd].
    rewrite IH, <-app_assoc. done.
Qed.

Lemma pushByType_fold (l : list ContextItem) (b : ItemBuckets) :
  let b' := fold_left pushByType l b in
  bucket_equipment b'
  = bucket_equipment b ++ filter (λ i, ci_type i = "equipment") l
  ∧ bucket_weapons b' = bucket_weapons b ++ filter (λ i, ci_type i = "weapon") l
  ∧ bucket_armor b' = bucket_armor b ++ filter (λ i, ci_type i = "armor") l
  ∧ bucket_spells b' = bucket_spells b ++ filter (λ i, ci_type i = "spell") l
  ∧ bucket_traits b' = bucket_traits b ++ filter (λ i, ci_type i = "trait") l.
Proof.
  revert b. induction l as [|i l IH]; intros b; cbn zeta.
  - cbn [fold_left]. rewrite !filter_nil, !app_nil_r. done.
  - cbn [fold_left]. specialize (IH (pushByType b i)). cbn zeta in IH.
    destruct IH as (-> & -> & -> & -> & ->).
    rewrite !filter_cons. unfold pushByType.
    repeat case_decide; simplify_eq;
      cbn [bucket_equipment bucket_weapons bucket_armor bucket_spells
           bucket_traits];
      rewrite <-?app_assoc; try done; congruence.
Qed.

(** X19. [_prepareItems] gives every item of the context an image, keeping
    an image that is there and not empty, and fills each of its five arrays
    with the items of that type in their order; an item of any other type is
    in none of the arrays. *)
Theorem _prepareItems_buckets (DEFAULT_TOKEN : string)
    (contextItems : list ContextItem) :
  let result := _prepareItems DEFAULT_TOKEN contextItems in
  let its := withDefaultImg DEFAULT_TOKEN <$> contextItems in
  result.1 = its
  ∧ bucket_equipment result.2 = filter (λ i, ci_type i = "equipment") its
  ∧ bucket_weapons result.2 = filter (λ i, ci_type i = "weapon") its
  ∧ bucket_armor result.2 = filter (λ i, ci_type i = "armor") its
  ∧ bucket_spells result.2 = filter (λ i, ci_type i = "spell") its
  ∧ bucket_traits result.2 = filter (λ i, ci_type i = "trait") its
  ∧ (∀ i, i ∈ contextItems → ci_type i ∉ sheetTypes →
       withDefaultImg DEFAULT_TOKEN i
       ∉ bucket_equipment result.2 ++ bucket_weapons result.2
         ++ bucket_armor result.2 ++ bucket_spells result.2
         ++ bucket_traits result.2)
  ∧ (∀ i s, i ∈ contextItems → ci_img i = Some s → s ≠ "" →
       ci_img (withDefaultImg DEFAULT_TOKEN i) = Some s)
  ∧ (DEFAULT_TOKEN ≠ "" →
       Forall (λ i, ∃ s, ci_img i = Some s ∧ s ≠ "") result.1).
Proof.
  intros result its. subst result. unfold _prepareItems.
  rewrite allocateItem_fold. cbn [fst snd]. fold its.
  destruct (pushByType_fold its emptyBuckets) as (-> & -> & -> & -> & ->).
  cbn [emptyBuckets bucket_equipment bucket_weapons bucket_armor
       bucket_spells bucket_traits app].
  do 6 (split; [reflexivity|]). split; [|split].
  - intros i _ Hother Hin. apply Hother. unfold sheetTypes.
    rewrite !elem_of_app, !list_elem_of_filter in Hin.
    rewrite !elem_of_cons.
    destruct Hin as [[H _]|[[H _]|[[H _]|[[H _]|[H _]]]]]; cbn in H; auto 10.
  - intros i s _ Himg Hs. cbn. rewrite Himg. cbn.
    by rewrite decide_False.
  - intros Hdef. subst its. apply Forall_fmap, Forall_forall.
    intros i _. cbn. eexists. split; [reflexivity|].
    destruct (ci_img i) as [s|]; cbn; [|done]. by case_decide.
Qed.

Lemma _prepareItems_buckets_witness :
  "icons/svg/mystery-man.svg" ≠ ""
  ∧ ci_name <$> bucket_armor
      (_prepareItems "icons/svg/mystery-man.svg" sheetItems).2 = ["Helmet"]
  ∧ Forall (λ i, ∃ s, ci_img i = Some s ∧ s ≠ "")
      (_prepareItems "icons/svg/mystery-man.svg" sheetItems).1.
Proof.
  assert (Hdef : "icons/svg/mystery-man.svg" ≠ "") by discriminate.
  split; [exact Hdef|].
  destruct (_prepareItems_buckets "icons/svg/mystery-man.svg" sheetItems)
    as (_ & _ & _ & Harmor & _ & _ & _ & _ & Himg).
  split; [by rewrite Harmor|exact (Himg Hdef)].
Defined.

(** ** The [window.RUNE] helpers *)

(** X20. [RUNE.rollCheck] and [RUNE.rollAttack] roll exactly when the actor
    id is known, and then return the message of the actor's own method and
    show no error; for an unknown id they return nothing and show the single
    error "Actor not found!", whatever the other arguments. *)
Theorem RUNE_helpers_actor_lookup (actors : gmap string Actor)
    (dieRoller : DieRoller) (actorId approach : string)
    (targetId : option string) (isMagic : bool) (advantage : Z) :
  let check := RUNE_rollCheck actors dieRoller actorId approach advantage in
  let attack := RUNE_rollAttack actors dieRoller actorId approach targetId
                  isMagic advantage in
  (∀ actor, actors !! actorId = Some actor →
     check = (Some (rollCheck actor dieRoller approach advantage), [])
     ∧ ∃ target, attack
         = (Some (rollAttack actor dieRoller approach target isMagic advantage),
            []))
  ∧ (actors !! actorId = None →
     check = (None, ["Actor not found!"])
     ∧ attack = (None, ["Actor not found!"]))
  ∧ (is_Some check.1 ↔ is_Some (actors !! actorId))
  ∧ (is_Some attack.1 ↔ is_Some (actors !! actorId)).
Proof.
  intros check attack. subst check attack.
  unfold RUNE_rollCheck, RUNE_rollAttack.
  destruct (actors !! actorId) as [actor|] eqn:Hactor; cbn [fst].
  - split; [|split; [done|]].
    + intros ? [= <-]. split; [done|]. by eexists.
    + split; split; by eauto.
  - split; [done|]. split; [done|].
    split; split; intros [? ?]; done.
Qed.

Lemma RUNE_helpers_actor_lookup_witness :
  world !! "nobody" = None
  ∧ RUNE_rollCheck world (scriptedRoller [4; 2]) "nobody" "might" 0
    = (None, ["Actor not found!"]).
Proof.
  assert (Hnone : world !! "nobody" = None) by (vm_compute; reflexivity).
  split; [exact Hnone|].
  exact (proj1 (proj1 (proj2 (RUNE_helpers_actor_lookup world
    (scriptedRoller [4; 2]) "nobody" "might" None false 0)) Hnone)).
Defined.

(** X21. For a known actor, [RUNE.rollAttack] rolls against a target exactly
    when the target id is a non-empty id of a known actor; an absent, empty
    or unknown target id gives the roll without target, and no error is
    shown for it. *)
Theorem RUNE_rollAttack_target (actors : gmap string Actor)
    (dieRoller : DieRoller) (actorId approach : string)
    (targetId : option string) (isMagic : bool) (advantage : Z)
    (actor : Actor) :
  actors !! actorId = Some actor →
  let result := RUNE_rollAttack actors dieRoller actorId approach targetId
                  isMagic advantage in
  result.2 = []
  ∧ (∀ id target, targetId = Some id → id ≠ "" →
       actors !! id = Some target →
       result.1 = Some (rollAttack actor dieRoller approach (Some target)
                          isMagic advantage))
  ∧ (targetId = None ∨ targetId = Some ""
     ∨ (∃ id, targetId = Some id ∧ actors !! id = None) →
       result.1 = Some (rollAttack actor dieRoller approach None isMagic
                          advantage)).
Proof.
  intros Hactor result. subst result. unfold RUNE_rollAttack.
  rewrite Hactor. cbn [fst snd]. split; [done|]. split.
  - intros id target -> Hid Htarget. cbn [truthy_string].
    rewrite bool_decide_true by done. cbn. by rewrite Htarget.
  - intros [->|[->|(id & -> & Hnone)]]; cbn [truthy_string]; [done|done|].
    case_bool_decide; [|done]. cbn. by rewrite Hnone.
Qed.

Lemma RUNE_rollAttack_target_witness :
  world !! "hero" = Some (hero 4)
  ∧ (RUNE_rollAttack world (scriptedRoller [3; 2]) "hero" "might"
       (Some "ghost") false 0).1
    = Some (rollAttack (hero 4) (scriptedRoller [3; 2]) "might" None false 0).
Proof.
  assert (Hhero : world !! "hero" = Some (hero 4)) by (vm_compute; reflexivity).
  split; [exact Hhero|].
  apply (RUNE_rollAttack_target world (scriptedRoller [3; 2]) "hero" "might"
           (Some "ghost") false 0 (hero 4) Hhero).
  right. right. exists "ghost". split; [reflexivity|].
  vm_compute. reflexivity.
Defined.
